(** * Question-paper backend (server.js): a shallow embedding and its properties

    The server keeps one question bank in memory.  An upload replaces the
    bank by the normalised rows of a spreadsheet ([processExcelData]); a
    generation request draws six questions from it under per-unit and
    per-level quotas ([generateQuestions]); a third endpoint proxies images.

    Conventions of the embedding.
    - A JavaScript string is a [string] whose characters are code units
      below 256.
    - A loosely typed spreadsheet cell is a [jsval]; numeric cells hold
      integers.  A number is held as the integer it denotes, where the
      engine holds the nearest double: the two agree on safe integers
      ([isSafeInteger], magnitude below 2^53), and on the comparisons the
      server makes (with 0, 1, 4, 5 and 6) for every integer.  Statements
      that expose a number as printed or as parsed assume that range.
    - A plain JavaScript object used as a dictionary is a [gmap]; reads that
      can reach [Object.prototype] go through [getProp].
    - Thrown exceptions are values of [error]; code that throws returns an
      [outcome].  Code that reads the bank or calls [Math.random] runs in
      the state-and-exception monad [M] over [world].
    - [console.log] and [console.error] calls are not modelled. *)

From stdpp Require Import base decidable option list gmap strings pretty sorting.
From Stdlib Require Import ZArith Ascii Lia.

Open Scope Z_scope.

(** ** JavaScript values and the coercions the server relies on *)

Inductive jsval :=
| JUndefined
| JString (s : string)
| JNumber (n : Z)
| JBool (b : bool).

(** ToBoolean. *)
Definition truthy (v : jsval) : bool :=
  match v with
  | JUndefined => false
  | JString s => negb (bool_decide (s = ""))
  | JNumber n => negb (n =? 0)
  | JBool b => b
  end.

(** [v || d]. *)
Definition js_or (v d : jsval) : jsval := if truthy v then v else d.

(** [Number.isSafeInteger(n)], for an integer: the doubles of that range
    are exactly the integers, and the engine prints each of them as its
    plain decimal form. *)
Definition isSafeInteger (n : Z) : Prop := -2 ^ 53 < n < 2 ^ 53.

(** A cell that, if numeric, holds a safe integer. *)
Definition safeCell (v : jsval) : Prop :=
  match v with
  | JNumber n => isSafeInteger n
  | _ => True
  end.

(** [String(v)].  For a number this is the plain decimal form, which is
    what the engine prints for a safe integer; beyond 2^53 the engine
    prints the shortest digits that identify the double (at most 17, then
    zeros) and from 10^21 on it uses exponent notation, which this
    definition does not follow. *)
Definition ToString (v : jsval) : string :=
  match v with
  | JUndefined => "undefined"
  | JString s => s
  | JNumber n => pretty n
  | JBool true => "true"
  | JBool false => "false"
  end.

(** White space and line terminators among the code units below 256:
    TAB, LF, VT, FF, CR, SP and NBSP. *)
Definition isWhiteSpace (c : ascii) : bool :=
  bool_decide (nat_of_ascii c ∈ [9; 10; 11; 12; 13; 32; 160]%nat).

Fixpoint trimStart (s : string) : string :=
  match s with
  | String c s' => if isWhiteSpace c then trimStart s' else s
  | EmptyString => EmptyString
  end.

Definition trimEnd (s : string) : string := String.rev (trimStart (String.rev s)).

(** [s.trim()]. *)
Definition trim (s : string) : string := trimEnd (trimStart s).

(** [s.replace(/^L/i, '')]: one leading [L] or [l] is removed. *)
Definition stripL (s : string) : string :=
  match s with
  | String c s' => if bool_decide (c = "L"%char ∨ c = "l"%char) then s' else s
  | EmptyString => EmptyString
  end.

(** Value of a character as a digit, for radices up to 16. *)
Definition digitValue (c : ascii) : option Z :=
  let n := Z.of_nat (nat_of_ascii c) in
  if (48 <=? n) && (n <=? 57) then Some (n - 48)
  else if (97 <=? n) && (n <=? 102) then Some (n - 87)
  else if (65 <=? n) && (n <=? 70) then Some (n - 55)
  else None.

(** The longest prefix of radix-[R] digits, read as a number; [acc] is the
    value read so far ([None]: no digit yet). *)
Fixpoint readDigits (R : Z) (s : string) (acc : option Z) : option Z :=
  match s with
  | String c s' =>
      match digitValue c with
      | Some d => if d <? R then readDigits R s' (Some (default 0 acc * R + d)) else acc
      | None => acc
      end
  | EmptyString => acc
  end.

(** [parseInt(s)] with no radix argument; [None] is NaN.  Leading white
    space is skipped, a sign is read, a [0x] or [0X] prefix selects radix
    16, and the digits stop at the first character that is not one.  The
    result is the integer the digits denote; the engine returns the double
    nearest to it, which is that integer when it is a safe integer and
    compares alike with every safe integer otherwise. *)
Definition parseInt (input : string) : option Z :=
  let s := trimStart input in
  let '(sign, s) :=
    match s with
    | String "-"%char r => (-1, r)
    | String "+"%char r => (1, r)
    | _ => (1, s)
    end in
  let '(R, s) :=
    match s with
    | String "0"%char (String x r) =>
        if bool_decide (x = "x"%char ∨ x = "X"%char) then (16, r) else (10, s)
    | _ => (10, s)
    end in
  (λ n, sign * n) <$> readDigits R s None.

(** [parseInt(s) || 0]: NaN and 0 both give 0. *)
Definition parseIntOr0 (s : string) : Z := default 0 (parseInt s).

(** ** Errors and outcomes *)

Inductive error :=
| TypeError (msg : string)
| InsufficientBank
| NoValidBTL
| UnsupportedCase (maxBTL : Z) (levels : list string)
| InvalidPaperType
| NoRandomBTL
| InsufficientRandomBTL (btl : string)
| InsufficientBTL (level : string) (need : nat) (found : Z)
| FailedToPick (level : string)
| UnitBelowMin (unit : Z) (have need : nat)
| NotExactlySix.

Inductive outcome (A : Type) :=
| Returns (a : A)
| Throws (e : error).
Arguments Returns {A} a.
Arguments Throws {A} e.

(** [xs.join(",")], the way an array prints inside a template literal. *)
Fixpoint joinComma (xs : list string) : string :=
  match xs with
  | [] => ""
  | [x] => x
  | x :: rest => x +:+ "," +:+ joinComma rest
  end.

(** The [message] of each thrown error.  Numbers are printed in plain
    decimal form, as the engine prints safe integers; the counts printed
    are bounded by the size of the bank, and the maximum level is printed
    as the engine prints it when it is a safe integer. *)
Definition message (e : error) : string :=
  match e with
  | TypeError msg => msg
  | InsufficientBank =>
      "Insufficient questions in question bank. At least 6 questions are required."
  | NoValidBTL => "No valid BTL levels found in question bank"
  | UnsupportedCase maxBTL levels =>
      "Unsupported case: Max BTL = " +:+ pretty maxBTL +:+ " with multiple BTLs ("
      +:+ joinComma levels
      +:+ "). Only Case i (max BTL = 6), Case ii (max BTL = 4), or Case iii (single BTL) are supported."
  | InvalidPaperType => "Invalid paper type"
  | NoRandomBTL => "No questions available for BTL [L1, L5, L6] in required units"
  | InsufficientRandomBTL btl =>
      "Insufficient questions for BTL " +:+ btl +:+ " in required units"
  | InsufficientBTL level need found =>
      "Insufficient questions for BTL " +:+ level +:+ " (need " +:+ pretty need
      +:+ ", found " +:+ pretty found +:+ ") in required units"
  | FailedToPick level => "Failed to pick BTL " +:+ level +:+ " despite availability"
  | UnitBelowMin unit have need =>
      "Unit " +:+ pretty unit +:+ " has " +:+ pretty have
      +:+ " questions, needs at least " +:+ pretty need
  | NotExactlySix =>
      "Failed to select exactly 6 questions with required BTL and unit constraints"
  end.

(** ** Drive share links *)

Definition driveFilePrefix : string := "https://drive.google.com/file/d/".

Fixpoint stripPrefix (p s : string) : option string :=
  match p, s with
  | EmptyString, _ => Some s
  | String a p', String b s' => if bool_decide (a = b) then stripPrefix p' s' else None
  | String _ _, EmptyString => None
  end.

(** [s.startsWith(p)]. *)
Definition startsWith (s p : string) : bool :=
  match stripPrefix p s with
  | Some _ => true
  | None => false
  end.

(** [([^/]+)\/view] at the start of [s]: the run of characters up to the
    first slash, which must be non-empty and followed by [/view].  [acc]
    holds the run read so far, reversed. *)
Fixpoint captureId (s : string) (acc : string) : option string :=
  match s with
  | EmptyString => None
  | String c s' =>
      if bool_decide (c = "/"%char) then
        match acc, stripPrefix "view" s' with
        | String _ _, Some _ => Some (String.rev acc)
        | _, _ => None
        end
      else captureId s' (String c acc)
  end.

(** The whole pattern anchored at the start of [s]. *)
Definition driveMatchAt (s : string) : option string :=
  stripPrefix driveFilePrefix s ≫= λ rest, captureId rest "".

(** [url.match(driveRegex)]: the leftmost position where the pattern
    matches, giving capture group 1. *)
Fixpoint driveMatch (url : string) : option string :=
  match driveMatchAt url with
  | Some fileId => Some fileId
  | None =>
      match url with
      | String _ url' => driveMatch url'
      | EmptyString => None
      end
  end.

Definition getDirectImageURL (url : string) : string :=
  match driveMatch url with
  | Some fileId => "https://drive.google.com/uc?export=view&id=" +:+ fileId
  | None => url
  end.

(** [getDirectImageURL] applied to a cell: only a string has [match]. *)
Definition getDirectImageURLOf (v : jsval) : outcome string :=
  match v with
  | JString s => Returns (getDirectImageURL s)
  | _ => Throws (TypeError "url.match is not a function")
  end.

(** ** Rows and question records *)

(** One object of [XLSX.utils.sheet_to_json]; a missing column is
    [JUndefined]. *)
Record row := {
  row_Unit : jsval;
  row_Question : jsval;
  row_BTLevel : jsval;
  row_SubjectCode : jsval;
  row_Subject : jsval;
  row_Branch : jsval;
  row_Regulation : jsval;
  row_Year : jsval;
  row_Sem : jsval;
  row_Month : jsval;
  row_ImageUrl : jsval
}.

Record question := {
  q_id : nat;
  q_unit : Z;
  q_question : jsval;
  q_btLevel : string;
  q_subjectCode : jsval;
  q_subject : jsval;
  q_branch : jsval;
  q_regulation : jsval;
  q_year : jsval;
  q_semester : jsval;
  q_month : jsval;
  q_imageUrl : string
}.

(** [String(row['B.T Level'] || '').trim().replace(/^L/i, '')]. *)
Definition btLevelOf (r : row) : string :=
  stripL (trim (ToString (js_or (row_BTLevel r) (JString "")))).

(** [parseInt(row.Unit) || 0]. *)
Definition unitOf (r : row) : Z := parseIntOr0 (ToString (row_Unit r)).

(** The callback of [data.map]. *)
Definition normalizeRow (r : row) (index : nat) : outcome question :=
  let btLevel := btLevelOf r in
  match (if truthy (row_ImageUrl r) then getDirectImageURLOf (row_ImageUrl r)
         else Returns "") with
  | Throws e => Throws e
  | Returns imageUrl =>
      Returns {|
        q_id := index + 1;
        q_unit := unitOf r;
        q_question := js_or (row_Question r) (JString "");
        q_btLevel := if bool_decide (btLevel = "") then "0" else btLevel;
        q_subjectCode := js_or (row_SubjectCode r) (JString "");
        q_subject := js_or (row_Subject r) (JString "");
        q_branch := js_or (row_Branch r) (JString "");
        q_regulation := js_or (row_Regulation r) (JString "");
        q_year := js_or (row_Year r) (JString "");
        q_semester := js_or (row_Sem r) (JString "");
        q_month := js_or (row_Month r) (JString "");
        q_imageUrl := imageUrl
      |}
  end.

(** [data.map((row, index) => ...)], left to right from [index]. *)
Fixpoint mapRows (data : list row) (index : nat) : outcome (list question) :=
  match data with
  | [] => Returns []
  | r :: data' =>
      match normalizeRow r index with
      | Throws e => Throws e
      | Returns q =>
          match mapRows data' (S index) with
          | Throws e => Throws e
          | Returns qs => Returns (q :: qs)
          end
      end
  end.

(** The predicate of the final [filter]. *)
Definition keepQuestion (q : question) : Prop :=
  1 ≤ q_unit q ∧ q_unit q ≤ 5 ∧ q_btLevel q ≠ "0".

Global Instance keepQuestion_dec q : Decision (keepQuestion q).
Proof. unfold keepQuestion. apply _. Defined.

Definition processExcelData (data : list row) : outcome (list question) :=
  match mapRows data 0 with
  | Throws e => Throws e
  | Returns qs => Returns (filter keepQuestion qs)
  end.

(** ** The process state and the monad of the request handlers *)

(** [questionBank] is the module-level variable ([None] is [null]).  The
    [n]-th call of [Math.random] is represented by the natural number
    [random n]; [drawn] counts the calls made so far. *)
Record world := {
  questionBank : option (list question);
  random : nat → nat;
  drawn : nat
}.

Definition M (A : Type) : Type := world → outcome A * world.

Definition ret {A} (a : A) : M A := λ w, (Returns a, w).
Definition throw {A} (e : error) : M A := λ w, (Throws e, w).
Definition bind {A B} (k : A → M B) (m : M A) : M B :=
  λ w, match m w with
       | (Returns a, w') => k a w'
       | (Throws e, w') => (Throws e, w')
       end.
Definition lift {A} (o : outcome A) : M A := λ w, (o, w).

(** [x ← m; k] runs [m], then [k] unless [m] threw. *)
Global Instance M_ret : MRet M := @ret.
Global Instance M_bind : MBind M := @bind.

(** Reading the module-level variable. *)
Definition readBank : M (option (list question)) := λ w, (Returns (questionBank w), w).

(** [Math.floor(Math.random() * n)] for [n > 0]: some index below [n].
    Every index below [n] is drawn for some [random], so a statement about
    all worlds covers every run. *)
Definition randomIndex (n : nat) : M nat :=
  λ w, (Returns (random w (drawn w) `mod` n)%nat,
        {| questionBank := questionBank w; random := random w; drawn := S (drawn w) |}).

(** ** Step 1: the availability index *)

(** Names every plain object inherits from [Object.prototype]. *)
Definition objectPrototypeKeys : list string :=
  [ "constructor"; "__defineGetter__"; "__defineSetter__"; "hasOwnProperty";
    "__lookupGetter__"; "__lookupSetter__"; "isPrototypeOf";
    "propertyIsEnumerable"; "toString"; "valueOf"; "__proto__";
    "toLocaleString" ].

Inductive property (V : Type) :=
| Own (v : V)
| Inherited
| Missing.
Arguments Own {V} v.
Arguments Inherited {V}.
Arguments Missing {V}.

(** [o[k]] on a plain object [o] whose own properties are [o]. *)
Definition getProp {V} (o : gmap string V) (k : string) : property V :=
  match o !! k with
  | Some v => Own v
  | None => if bool_decide (k ∈ objectPrototypeKeys) then Inherited else Missing
  end.

(** [set.add(x)] on a [Set], kept in insertion order. *)
Definition setAdd (x : string) (s : list string) : list string :=
  if bool_decide (x ∈ s) then s else s ++ [x].

(** The [forEach] over the questions of one unit.  An inherited property
    is truthy, so no array is created for it, and it has no [push]. *)
Fixpoint indexUnit (qs : list question) (byBTL : gmap string (list question))
    (availableBTLs : list string)
    : outcome (gmap string (list question) * list string) :=
  match qs with
  | [] => Returns (byBTL, availableBTLs)
  | q :: qs' =>
      match getProp byBTL (q_btLevel q) with
      | Inherited =>
          Throws (TypeError "availableByUnitAndBTL[unit][q.btLevel].push is not a function")
      | Missing =>
          indexUnit qs' (<[q_btLevel q := [q]]> byBTL) (setAdd (q_btLevel q) availableBTLs)
      | Own arr =>
          indexUnit qs' (<[q_btLevel q := arr ++ [q]]> byBTL) (setAdd (q_btLevel q) availableBTLs)
      end
  end.

(** The [for (let unit = 1; unit <= 5; unit++)] loop, over the units left. *)
Fixpoint indexUnits (units : list Z) (bank : list question)
    (availableByUnitAndBTL : gmap Z (gmap string (list question)))
    (availableBTLs : list string)
    : outcome (gmap Z (gmap string (list question)) * list string) :=
  match units with
  | [] => Returns (availableByUnitAndBTL, availableBTLs)
  | unit :: units' =>
      match indexUnit (filter (λ q, q_unit q = unit) bank) ∅ availableBTLs with
      | Throws e => Throws e
      | Returns (byBTL, availableBTLs') =>
          indexUnits units' bank (<[unit := byBTL]> availableByUnitAndBTL) availableBTLs'
      end
  end.

Definition assessAvailable (bank : list question)
    : outcome (gmap Z (gmap string (list question)) * list string) :=
  indexUnits [1; 2; 3; 4; 5] bank ∅ [].

(** [availableByUnitAndBTL[unit][btl]?.length]; [None] is [undefined].
    The units asked for are those of a unit-requirement table, all within
    1..5, and the levels asked for are never inherited names. *)
Definition availableLength (availableByUnitAndBTL : gmap Z (gmap string (list question)))
    (unit : Z) (btl : string) : option nat :=
  availableByUnitAndBTL !! unit ≫= λ byBTL, length <$> byBTL !! btl.

(** ** Step 2: the maximum level *)

(** [questionBank.map(q => parseInt(q.btLevel) || 0).filter(btl => btl > 0)]. *)
Definition btLevelsOf (bank : list question) : list Z :=
  filter (λ btl, 0 < btl) ((λ q, parseIntOr0 (q_btLevel q)) <$> bank).

(** [Math.max(...btLevels)] for a non-empty list. *)
Definition mathMax (first : Z) (rest : list Z) : Z := foldl Z.max first rest.

(** ** Step 3: level requirements *)

(** [{ level, count }] or [{ level: 'random', options, count }]. *)
Record btlRequirement := {
  br_level : string;
  br_options : option (list string);
  br_count : nat
}.

Definition schemeA : list btlRequirement :=
  [ {| br_level := "2"; br_options := None; br_count := 2 |};
    {| br_level := "3"; br_options := None; br_count := 2 |};
    {| br_level := "4"; br_options := None; br_count := 1 |};
    {| br_level := "random"; br_options := Some ["1"; "5"; "6"]; br_count := 1 |} ].

Definition schemeB : list btlRequirement :=
  [ {| br_level := "2"; br_options := None; br_count := 2 |};
    {| br_level := "3"; br_options := None; br_count := 2 |};
    {| br_level := "4"; br_options := None; br_count := 2 |} ].

Definition schemeC (level : string) : list btlRequirement :=
  [ {| br_level := level; br_options := None; br_count := 6 |} ].

(** The [if (maxBTL === 6) ... else if (maxBTL === 4) ... else if
    (availableBTLs.size === 1) ... else throw] chain. *)
Definition btlRequirements (maxBTL : Z) (availableBTLs : list string)
    : outcome (list btlRequirement) :=
  if bool_decide (maxBTL = 6) then Returns schemeA
  else if bool_decide (maxBTL = 4) then Returns schemeB
  else match availableBTLs with
       | [level] => Returns (schemeC level)
       | _ => Throws (UnsupportedCase maxBTL availableBTLs)
       end.

(** ** Step 4: unit requirements *)

Record unitRequirement := {
  ur_unit : Z;
  ur_minCount : nat;
  ur_maxCount : nat
}.

Definition unitRequirements (paperType : string) : outcome (list unitRequirement) :=
  if bool_decide (paperType = "mid1") then
    Returns [ {| ur_unit := 1; ur_minCount := 2; ur_maxCount := 3 |};
              {| ur_unit := 2; ur_minCount := 2; ur_maxCount := 3 |};
              {| ur_unit := 3; ur_minCount := 1; ur_maxCount := 1 |} ]
  else if bool_decide (paperType = "mid2") then
    Returns [ {| ur_unit := 4; ur_minCount := 2; ur_maxCount := 3 |};
              {| ur_unit := 5; ur_minCount := 2; ur_maxCount := 3 |};
              {| ur_unit := 3; ur_minCount := 1; ur_maxCount := 1 |} ]
  else if bool_decide (paperType = "special") then
    Returns [ {| ur_unit := 1; ur_minCount := 1; ur_maxCount := 2 |};
              {| ur_unit := 2; ur_minCount := 1; ur_maxCount := 2 |};
              {| ur_unit := 3; ur_minCount := 1; ur_maxCount := 2 |};
              {| ur_unit := 4; ur_minCount := 1; ur_maxCount := 2 |};
              {| ur_unit := 5; ur_minCount := 1; ur_maxCount := 2 |} ]
  else Throws InvalidPaperType.

(** ** Step 5: the selection *)

(** The mutable locals of [selectQuestions]. *)
Record selection := {
  selectedQuestions : list question;
  unitCount : gmap Z nat;
  btlCount : gmap string nat;
  remainingQuestions : list question
}.

(** [counts[k]] read as a number, with [counts[k] || 0] for [btlCount]; for
    [unitCount] the keys read are units of the requirement table, which the
    object literal [{ 1: 0, 2: 0, 3: 0, 4: 0, 5: 0 }] defines. *)
Definition countOf `{Countable K} (counts : gmap K nat) (k : K) : nat :=
  default 0%nat (counts !! k).

(** [unitReqs.find(r => r.unit === u)]. *)
Definition findUnit (unitReqs : list unitRequirement) (u : Z) : option unitRequirement :=
  List.find (λ r, bool_decide (ur_unit r = u)) unitReqs.

(** [unitReqs.find(r => r.unit === u).minCount] and [.maxCount]; they are
    only evaluated for units taken from [unitReqs], so [find] succeeds. *)
Definition minCountOf (unitReqs : list unitRequirement) (u : Z) : nat :=
  from_option ur_minCount 0%nat (findUnit unitReqs u).
Definition maxCountOf (unitReqs : list unitRequirement) (u : Z) : nat :=
  from_option ur_maxCount 0%nat (findUnit unitReqs u).

(** [Array.prototype.sort] with a comparator, as a stable insertion sort. *)
Fixpoint insertBy (cmp : Z → Z → Z) (x : Z) (l : list Z) : list Z :=
  match l with
  | [] => [x]
  | y :: l' => if bool_decide (cmp x y ≤ 0) then x :: l else y :: insertBy cmp x l'
  end.
Definition sortBy (cmp : Z → Z → Z) (l : list Z) : list Z := foldr (insertBy cmp) [] l.

(** The units of the table, those furthest below their minimum first. *)
Definition allowedUnits (unitReqs : list unitRequirement) (s : selection) : list Z :=
  sortBy (λ a b,
            let aDiff := Z.of_nat (countOf (unitCount s) a) - Z.of_nat (minCountOf unitReqs a) in
            let bDiff := Z.of_nat (countOf (unitCount s) b) - Z.of_nat (minCountOf unitReqs b) in
            aDiff - bDiff)
         (ur_unit <$> unitReqs).

(** The candidates of one pick. *)
Definition availableFor (unitReqs : list unitRequirement) (btl : string) (s : selection)
    : list question :=
  filter (λ q, q_unit q ∈ allowedUnits unitReqs s
               ∧ q_btLevel q = btl
               ∧ (countOf (unitCount s) (q_unit q) < maxCountOf unitReqs (q_unit q))%nat)
         (remainingQuestions s).

(** The three updates after a question [q] is drawn. *)
Definition consume (q : question) (s : selection) : selection :=
  {| selectedQuestions := selectedQuestions s;
     unitCount := <[q_unit q := S (countOf (unitCount s) (q_unit q))]> (unitCount s);
     btlCount := <[q_btLevel q := (countOf (btlCount s) (q_btLevel q) + 1)%nat]> (btlCount s);
     remainingQuestions := filter (λ r, q_id r ≠ q_id q) (remainingQuestions s) |}.

(** [pickQuestion(btl)]; [None] is the [null] it returns when no candidate
    is left.  [Math.random] is called only when there is a candidate. *)
Definition pickQuestion (unitReqs : list unitRequirement) (btl : string) (s : selection)
    : M (option question * selection) :=
  let available := availableFor unitReqs btl s in
  match available with
  | [] => ret (None, s)
  | _ :: _ =>
      idx ← randomIndex (length available);
      match available !! idx with
      | Some q => ret (Some q, consume q s)
      | None => throw (TypeError "Cannot read properties of undefined (reading 'id')")
      end
  end.

(** [selectedQuestions.push(q)]. *)
Definition push (q : question) (s : selection) : selection :=
  {| selectedQuestions := selectedQuestions s ++ [q];
     unitCount := unitCount s;
     btlCount := btlCount s;
     remainingQuestions := remainingQuestions s |}.

(** The [while (count > 0)] loop of a fixed-level requirement. *)
Fixpoint pickFixed (unitReqs : list unitRequirement) (level : string) (count : nat)
    (s : selection) : M selection :=
  match count with
  | O => ret s
  | S count' =>
      '(picked, s') ← pickQuestion unitReqs level s;
      match picked with
      | Some q => pickFixed unitReqs level count' (push q s')
      | None => throw (FailedToPick level)
      end
  end.

(** The [while (count > 0)] loop of the choose-from-set requirement.  An
    index past the end of [randomBTLs] would read [undefined], for which
    no question qualifies. *)
Fixpoint pickRandom (unitReqs : list unitRequirement) (randomBTLs : list string)
    (count : nat) (s : selection) : M selection :=
  match count with
  | O => ret s
  | S count' =>
      i ← randomIndex (length randomBTLs);
      match randomBTLs !! i with
      | None => throw (InsufficientRandomBTL "undefined")
      | Some btl =>
          '(picked, s') ← pickQuestion unitReqs btl s;
          match picked with
          | Some q => pickRandom unitReqs randomBTLs count' (push q s')
          | None => throw (InsufficientRandomBTL btl)
          end
      end
  end.

(** The levels of [options] that some participating unit still holds more
    of than were taken: [length > (btlCount[btl] || 0)], false on
    [undefined]. *)
Definition feasibleBTLs (availableByUnitAndBTL : gmap Z (gmap string (list question)))
    (unitReqs : list unitRequirement) (s : selection) (options : list string)
    : list string :=
  List.filter
    (λ btl, existsb (λ u, match availableLength availableByUnitAndBTL (ur_unit u) btl with
                          | Some n => bool_decide (countOf (btlCount s) btl < n)%nat
                          | None => false
                          end) unitReqs)
    options.

(** The [reduce] of the feasibility pre-check. *)
Definition availableCount (availableByUnitAndBTL : gmap Z (gmap string (list question)))
    (unitReqs : list unitRequirement) (s : selection) (level : string) : Z :=
  foldl (λ sum u,
           sum + Z.of_nat (default 0%nat (availableLength availableByUnitAndBTL (ur_unit u) level))
               - Z.of_nat (countOf (btlCount s) level))
        0 unitReqs.

(** The body of [for (const req of btlReqs)]. *)
Definition fillRequirement (availableByUnitAndBTL : gmap Z (gmap string (list question)))
    (unitReqs : list unitRequirement) (req : btlRequirement) (s : selection)
    : M selection :=
  if bool_decide (br_level req = "random") then
    match br_options req with
    | None => throw (TypeError "Cannot read properties of undefined (reading 'filter')")
    | Some options =>
        let randomBTLs := feasibleBTLs availableByUnitAndBTL unitReqs s options in
        match randomBTLs with
        | [] => throw NoRandomBTL
        | _ :: _ => pickRandom unitReqs randomBTLs (br_count req) s
        end
    end
  else
    let found := availableCount availableByUnitAndBTL unitReqs s (br_level req) in
    if bool_decide (found < Z.of_nat (br_count req)) then
      throw (InsufficientBTL (br_level req) (br_count req) found)
    else pickFixed unitReqs (br_level req) (br_count req) s.

Fixpoint fillRequirements (availableByUnitAndBTL : gmap Z (gmap string (list question)))
    (unitReqs : list unitRequirement) (btlReqs : list btlRequirement) (s : selection)
    : M selection :=
  match btlReqs with
  | [] => ret s
  | req :: btlReqs' =>
      s' ← fillRequirement availableByUnitAndBTL unitReqs req s;
      fillRequirements availableByUnitAndBTL unitReqs btlReqs' s'
  end.

(** The final [for (const req of unitReqs)] check. *)
Fixpoint validateUnitMinimums (reqs : list unitRequirement) (s : selection) : outcome () :=
  match reqs with
  | [] => Returns ()
  | req :: reqs' =>
      if bool_decide (countOf (unitCount s) (ur_unit req) < ur_minCount req)%nat then
        Throws (UnitBelowMin (ur_unit req) (countOf (unitCount s) (ur_unit req)) (ur_minCount req))
      else validateUnitMinimums reqs' s
  end.

(** The locals as [selectQuestions] initialises them. *)
Definition initialSelection (bank : list question) : selection :=
  {| selectedQuestions := [];
     unitCount := <[1 := 0%nat]> (<[2 := 0%nat]> (<[3 := 0%nat]> (<[4 := 0%nat]> (<[5 := 0%nat]> ∅))));
     btlCount := ∅;
     remainingQuestions := bank |}.

(** [selectQuestions(btlReqs, unitReqs)].  [remainingQuestions] starts as
    the copy [[...questionBank]] and is afterwards only re-bound to the
    fresh arrays [filter] returns. *)
Definition selectQuestions (availableByUnitAndBTL : gmap Z (gmap string (list question)))
    (btlReqs : list btlRequirement) (unitReqs : list unitRequirement)
    : M (list question) :=
  bank ← readBank;
  match bank with
  | None => throw (TypeError "questionBank is not iterable")
  | Some bank =>
      s ← fillRequirements availableByUnitAndBTL unitReqs btlReqs (initialSelection bank);
      _ ← lift (validateUnitMinimums unitReqs s);
      ret (selectedQuestions s)
  end.

(** ** generateQuestions *)

Definition generateQuestions (paperType : string) : M (list question) :=
  bank ← readBank;
  match bank with
  | None => throw InsufficientBank
  | Some bank =>
      if bool_decide (length bank < 6)%nat then throw InsufficientBank
      else
        '(availableByUnitAndBTL, availableBTLs) ← lift (assessAvailable bank);
        match btLevelsOf bank with
        | [] => throw NoValidBTL
        | first :: rest =>
            let maxBTL := mathMax first rest in
            btlReqs ← lift (btlRequirements maxBTL availableBTLs);
            unitReqs ← lift (unitRequirements paperType);
            selected ← selectQuestions availableByUnitAndBTL btlReqs unitReqs;
            if bool_decide (length selected ≠ 6%nat) then throw NotExactlySix
            else ret selected
        end
  end.

(** ** The HTTP handlers *)

Record questionView := {
  v_question : jsval;
  v_imageUrl : string;
  v_btLevel : string;
  v_unit : Z
}.

Record paperDetails := {
  pd_subject : jsval;
  pd_subjectCode : jsval;
  pd_branch : jsval;
  pd_regulation : jsval;
  pd_year : jsval;
  pd_semester : jsval
}.

(** The JSON bodies the three endpoints send. *)
Inductive body :=
| ErrorBody (error : string)
| ErrorContentTypeBody (error : string) (contentType : string)
| UploadBody (message : string) (questionCount : nat)
| PaperBody (questions : list questionView) (details : paperDetails)
| DataUrlBody (dataUrl : string).

(** [res.status(n).json(b)]; [res.json(b)] alone sends status 200. *)
Record response := {
  status : nat;
  json : body
}.

Definition viewOf (q : question) : questionView :=
  {| v_question := q_question q; v_imageUrl := q_imageUrl q;
     v_btLevel := q_btLevel q; v_unit := q_unit q |}.

Definition detailsOf (q : question) : paperDetails :=
  {| pd_subject := q_subject q; pd_subjectCode := q_subjectCode q;
     pd_branch := q_branch q; pd_regulation := q_regulation q;
     pd_year := q_year q; pd_semester := q_semester q |}.

(** [POST /api/generate] with body [{ paperType }]. *)
Definition generateHandler (paperType : string) (w : world) : response * world :=
  match questionBank w with
  | None =>
      ({| status := 400;
          json := ErrorBody "No questions available. Please upload an Excel file first." |}, w)
  | Some _ =>
      match generateQuestions paperType w with
      | (Returns (first :: rest), w') =>
          ({| status := 200;
              json := PaperBody (viewOf <$> first :: rest) (detailsOf first) |}, w')
      | (Returns [], w') =>
          ({| status := 500;
              json := ErrorBody ("Error generating questions: "
                                 +:+ "Cannot read properties of undefined (reading 'subject')") |}, w')
      | (Throws e, w') =>
          ({| status := 500;
              json := ErrorBody ("Error generating questions: " +:+ message e) |}, w')
      end
  end.

(** What the file system and the spreadsheet library do with an uploaded
    file: the rows of its first sheet, unless reading throws, and whether
    the temporary file can be deleted afterwards. *)
Record uploadedFile := {
  up_rows : outcome (list row);
  up_unlinkOk : bool
}.

(** [POST /api/upload]; [None] is a request that carries no file. *)
Definition uploadHandler (file : option uploadedFile) (w : world) : response * world :=
  match file with
  | None => ({| status := 400; json := ErrorBody "No file uploaded" |}, w)
  | Some f =>
      match up_rows f with
      | Throws _ => ({| status := 500; json := ErrorBody "Error processing file" |}, w)
      | Returns jsonData =>
          match processExcelData jsonData with
          | Throws _ => ({| status := 500; json := ErrorBody "Error processing file" |}, w)
          | Returns bank =>
              let w' := {| questionBank := Some bank; random := random w; drawn := drawn w |} in
              if up_unlinkOk f then
                ({| status := 200;
                    json := UploadBody "File processed successfully" (length bank) |}, w')
              else ({| status := 500; json := ErrorBody "Error processing file" |}, w')
          end
      end
  end.

(** What [axios.get] resolves with: the [content-type] header, if any, and
    the body as [Buffer.from(data).toString('base64')] renders it. *)
Record fetched := {
  f_contentType : option string;
  f_base64 : string
}.

Definition placeholder : string :=
  "data:image/png;base64,iVBORw0KGgoAAAANSUhEUgAAADIAAAAyCAYAAAAeP4ixAAAACXBIWXMAAAsTAAALEwEAmpwYAAAAvElEQVR4nO3YQQqDMBAF0L/KnW+/Q6+xu1oSLeI4DAgAAAAAAAAA7rZpm7Zt2/9eNpvNZrPZdrsdANxut9vt9nq9PgAwGo1Go9FoNBr9MabX6/U2m01mM5vNZnO5XC6X+wDAXC6Xy+VyuVwul8sFAKPRaDQajUaj0Wg0Go1Goz8A8Hg8Ho/H4/F4PB6Px+MBgMFoNBqNRqPRaDQajUaj0Wg0Go1Goz8AAAAAAAAA7rYBAK3eVREcAAAAAElFTkSuQmCC".

(** [GET /api/image-proxy-base64?url=...].  [fetch] is the outside world:
    [None] when the request rejects (network error or a non-2xx status).
    A response without a content type makes [startsWith] throw inside the
    [try], which the [catch] turns into the placeholder as well. *)
Definition imageProxyHandler (url : option string) (fetch : string → option fetched)
    : response :=
  match url with
  | None => {| status := 400; json := ErrorBody "No URL provided" |}
  | Some url =>
      if bool_decide (url = "") then {| status := 400; json := ErrorBody "No URL provided" |}
      else
        let directUrl := getDirectImageURL url in
        match fetch directUrl with
        | None => {| status := 200; json := DataUrlBody placeholder |}
        | Some r =>
            match f_contentType r with
            | None => {| status := 200; json := DataUrlBody placeholder |}
            | Some contentType =>
                if negb (startsWith contentType "image/") then
                  {| status := 400;
                     json := ErrorContentTypeBody "URL does not point to an image" contentType |}
                else
                  {| status := 200;
                     json := DataUrlBody ("data:" +:+ contentType +:+ ";base64," +:+ f_base64 r) |}
            end
        end
  end.

(** ** Vocabulary of the statements *)

(** A computation is [stable] when it leaves [questionBank] alone, whether
    it returns or throws. *)
Definition stable {A} (m : M A) : Prop :=
  ∀ w, questionBank (m w).2 = questionBank w.

(** How many of [qs] belong to unit [u], and how many carry level [l]. *)
Definition unitTally (u : Z) (qs : list question) : nat :=
  length (filter (λ q, q_unit q = u) qs).
Definition levelTally (l : string) (qs : list question) : nat :=
  length (filter (λ q, q_btLevel q = l) qs).

(** What holds of the locals of [selectQuestions] between two picks. *)
Record selection_inv (bank : list question) (unitReqs : list unitRequirement)
    (s : selection) : Prop := {
  inv_selected : ∀ q, q ∈ selectedQuestions s → q ∈ bank;
  inv_remaining : ∀ q, q ∈ remainingQuestions s →
                       q ∈ bank ∧ q_id q ∉ q_id <$> selectedQuestions s;
  inv_nodup : NoDup (q_id <$> selectedQuestions s);
  inv_units : ∀ u, countOf (unitCount s) u = unitTally u (selectedQuestions s);
  inv_allowed : ∀ q, q ∈ selectedQuestions s → q_unit q ∈ ur_unit <$> unitReqs;
  inv_max : ∀ u, (0 < unitTally u (selectedQuestions s))%nat →
                 (unitTally u (selectedQuestions s) ≤ maxCountOf unitReqs u)%nat
}.

(** A question meets a requirement when it has the fixed level, or one of
    the optional levels of the choose-from-set requirement. *)
Definition meets (req : btlRequirement) (q : question) : Prop :=
  if bool_decide (br_level req = "random")
  then ∃ options, br_options req = Some options ∧ q_btLevel q ∈ options
  else q_btLevel q = br_level req.

(** [fills reqs qs]: [qs] is made of one group per requirement, in order,
    each of the required size and of questions meeting the requirement. *)
Inductive fills : list btlRequirement → list question → Prop :=
| fills_nil : fills [] []
| fills_cons req reqs group rest :
    length group = br_count req →
    Forall (meets req) group →
    fills reqs rest →
    fills (req :: reqs) (group ++ rest).

(** The value of [maxBTL] in [generateQuestions], when step 2 passes: the
    greatest integer a level reads as.  The engine holds the double
    nearest to it, which is equal to 6 or to 4 exactly when this integer
    is, and is this integer when it is a safe integer. *)
Definition maxBTLOf (bank : list question) : option Z :=
  match btLevelsOf bank with
  | [] => None
  | first :: rest => Some (mathMax first rest)
  end.

(** ** Sample data *)

Definition sampleQuestion (id : nat) (unit : Z) (btLevel : string) : question :=
  {| q_id := id; q_unit := unit; q_question := JString "Define a stack.";
     q_btLevel := btLevel; q_subjectCode := JString "CS201";
     q_subject := JString "Data Structures"; q_branch := JString "CSE";
     q_regulation := JString "R20"; q_year := JNumber 2; q_semester := JNumber 1;
     q_month := JString "May"; q_imageUrl := "" |}.

(** Nine questions over units 1 to 3 with levels up to 6. *)
Definition sampleBank : list question :=
  [ sampleQuestion 1 1 "2"; sampleQuestion 2 1 "3"; sampleQuestion 3 2 "2";
    sampleQuestion 4 2 "3"; sampleQuestion 5 3 "4"; sampleQuestion 6 1 "6";
    sampleQuestion 7 2 "5"; sampleQuestion 8 2 "4"; sampleQuestion 9 1 "4" ].

(** One question per given level, all of unit 1, numbered from 1. *)
Definition levelBank (levels : list string) : list question :=
  imap (λ i level, sampleQuestion (S i) 1 level) levels.

(** A process whose random source always yields the first index. *)
Definition sampleWorld (bank : option (list question)) (drawn : nat) : world :=
  {| questionBank := bank; random := λ _, 0%nat; drawn := drawn |}.

(** What [generateQuestions "mid1"] selects from [sampleBank] there. *)
Definition sampleSelection : list question :=
  [ sampleQuestion 1 1 "2"; sampleQuestion 3 2 "2"; sampleQuestion 2 1 "3";
    sampleQuestion 4 2 "3"; sampleQuestion 5 3 "4"; sampleQuestion 7 2 "5" ].

(** A spreadsheet row with the given unit and level cells. *)
Definition sampleRow (unit btLevel : jsval) : row :=
  {| row_Unit := unit; row_Question := JString "Define a stack.";
     row_BTLevel := btLevel; row_SubjectCode := JString "CS201";
     row_Subject := JString "Data Structures"; row_Branch := JString "CSE";
     row_Regulation := JString "R20"; row_Year := JNumber 2; row_Sem := JNumber 1;
     row_Month := JString "May"; row_ImageUrl := JUndefined |}.

(** Whether a string holds a slash, the one character [[^/]] excludes. *)
Fixpoint hasSlash (s : string) : bool :=
  match s with
  | EmptyString => false
  | String c s' => bool_decide (c = "/"%char) || hasSlash s'
  end.

(** The direct-content form a share link is rewritten to. *)
Definition directPrefix : string := "https://drive.google.com/uc?export=view&id=".

(** [url] holds a Drive share link: the file prefix, a non-empty file id
    without slash, then [/view]. *)
Definition holdsShareLink (url : string) : Prop :=
  ∃ before fileId after,
    url = before +:+ driveFilePrefix +:+ fileId +:+ "/view" +:+ after
    ∧ fileId ≠ "" ∧ hasSlash fileId = false.

(** An [Image Url] cell [getDirectImageURL] can take: a string, or a falsy
    cell, for which it is not called. *)
Definition imageCellUsable (r : row) : Prop :=
  truthy (row_ImageUrl r) = false ∨ ∃ url, row_ImageUrl r = JString url.

(** What every bank built by [processExcelData] satisfies. *)
Definition wellFormedBank (bank : list question) : Prop :=
  Forall keepQuestion bank
  ∧ StronglySorted (λ a b, (q_id a < q_id b)%nat) bank
  ∧ Forall (λ q, getDirectImageURL (q_imageUrl q) = q_imageUrl q) bank.

(** The three routes of the server. *)
Inductive request :=
| UploadRequest (file : option uploadedFile)
| GenerateRequest (paperType : string)
| ImageProxyRequest (url : option string) (fetch : string → option fetched).

(** One request served by the handler of its route. *)
Definition serve (req : request) (w : world) : response * world :=
  match req with
  | UploadRequest file => uploadHandler file w
  | GenerateRequest paperType => generateHandler paperType w
  | ImageProxyRequest url fetch => (imageProxyHandler url fetch, w)
  end.

(** The state after a sequence of requests. *)
Definition serveAll (reqs : list request) (w : world) : world :=
  foldl (λ w req, (serve req w).2) w reqs.

(** A freshly started process: no bank yet. *)
Definition startWorld (random : nat → nat) : world :=
  {| questionBank := None; random := random; drawn := 0 |}.

(** A computation throws only errors satisfying [P]. *)
Definition throwsOnly {A} (P : error → Prop) (m : M A) : Prop :=
  ∀ w e w', m w = (Throws e, w') → P e.

(** The errors [generateQuestions] can throw: any but the one about not
    having exactly six questions, and of the [TypeError]s only two. *)
Definition generationError (e : error) : Prop :=
  match e with
  | NotExactlySix => False
  | TypeError msg =>
      msg = "availableByUnitAndBTL[unit][q.btLevel].push is not a function"
      ∨ msg = "Cannot read properties of undefined (reading 'filter')"
  | _ => True
  end.

(** [availableByUnitAndBTL[unit][btl]]; [None] is [undefined]. *)
Definition availableAt (availableByUnitAndBTL : gmap Z (gmap string (list question)))
    (unit : Z) (btl : string) : option (list question) :=
  availableByUnitAndBTL !! unit ≫= λ byBTL, byBTL !! btl.

(** The errors of an infeasible selection. *)
Definition quotaError (e : error) : Prop :=
  match e with
  | NoRandomBTL | InsufficientRandomBTL _ | InsufficientBTL _ _ _
  | FailedToPick _ | UnitBelowMin _ _ _ => True
  | _ => False
  end.

(** Decimal digits, and strings made of them. *)
Definition isDigit (c : ascii) : bool :=
  bool_decide (48 ≤ nat_of_ascii c ≤ 57)%nat.
Fixpoint allDigits (s : string) : bool :=
  match s with
  | EmptyString => true
  | String c s' => isDigit c && allDigits s'
  end.

(** Strings without white space. *)
Fixpoint noWhiteSpace (s : string) : bool :=
  match s with
  | EmptyString => true
  | String c s' => negb (isWhiteSpace c) && noWhiteSpace s'
  end.

(** The sheet whose normalisation is [sampleBank]. *)
Definition sampleSheet : list row :=
  [ sampleRow (JNumber 1) (JString "L2"); sampleRow (JNumber 1) (JString "L3");
    sampleRow (JNumber 2) (JNumber 2); sampleRow (JNumber 2) (JString "3");
    sampleRow (JString "3") (JString "l4"); sampleRow (JNumber 1) (JString "L6");
    sampleRow (JNumber 2) (JString " L5 "); sampleRow (JNumber 2) (JNumber 4);
    sampleRow (JNumber 1) (JString "4") ].

(** A sheet of two rows, the second of which has level 0. *)
Definition shortSheet : list row :=
  [ sampleRow (JNumber 1) (JString "L2"); sampleRow (JString "3") (JString " l0 ") ].

(** An uploaded file read and deleted without trouble. *)
Definition sampleFile (data : list row) : uploadedFile :=
  {| up_rows := Returns data; up_unlinkOk := true |}.

(** One question per given unit and level, numbered from 1. *)
Definition unitLevelBank (cells : list (Z * string)) : list question :=
  imap (λ i cell, sampleQuestion (S i) cell.1 cell.2) cells.

(** A bank for Scheme B and one for Scheme C. *)
Definition schemeBBank : list question :=
  unitLevelBank [(1, "2"); (2, "2"); (1, "3"); (2, "3"); (3, "4"); (1, "4")].
Definition schemeCBank : list question :=
  unitLevelBank [(3, "5"); (1, "5"); (1, "5"); (2, "5"); (2, "5"); (1, "5")].

(** * Properties *)

(** ** The coercions on concrete inputs *)

Example parseInt_stops_at_non_digit : parseInt "  12abc" = Some 12.
Proof. reflexivity. Qed.

Example parseInt_hexadecimal : parseInt "-0x1F" = Some (-31).
Proof. reflexivity. Qed.

Example parseInt_not_a_number : parseInt "abc" = None ∧ parseInt "0x" = None.
Proof. split; reflexivity. Qed.

Example btLevelOf_strips_prefix :
  btLevelOf (sampleRow (JNumber 1) (JString "  L3 ")) = "3"
  ∧ btLevelOf (sampleRow (JNumber 1) (JNumber 4)) = "4"
  ∧ btLevelOf (sampleRow (JNumber 1) (JNumber 0)) = "".
Proof. split_and!; reflexivity. Qed.

Example getDirectImageURL_drive_link :
  getDirectImageURL "https://drive.google.com/file/d/1AbC_9/view?usp=sharing"
  = "https://drive.google.com/uc?export=view&id=1AbC_9".
Proof. reflexivity. Qed.

Example getDirectImageURL_other_link :
  getDirectImageURL "https://example.com/file/d/1AbC_9/view"
  = "https://example.com/file/d/1AbC_9/view".
Proof. reflexivity. Qed.

(** An upload that goes through replaces the bank by the normalised rows. *)
Lemma uploadHandler_replaces_bank file data bank w :
  up_rows file = Returns data →
  processExcelData data = Returns bank →
  up_unlinkOk file = true →
  uploadHandler (Some file) w
  = ({| status := 200; json := UploadBody "File processed successfully" (length bank) |},
     {| questionBank := Some bank; random := random w; drawn := drawn w |}).
Proof. intros Hrows Hdata Hunlink. unfold uploadHandler. by rewrite Hrows, Hdata, Hunlink. Qed.

(** ** Reasoning about [M] *)

Lemma bind_returns {A B} (m : M A) (k : A → M B) w b w' :
  (m ≫= k) w = (Returns b, w') →
  ∃ a w1, m w = (Returns a, w1) ∧ k a w1 = (Returns b, w').
Proof.
  unfold mbind, M_bind, bind. destruct (m w) as [[a|e] w1]; intros H.
  - eauto.
  - discriminate.
Qed.

Lemma lift_returns {A} (o : outcome A) w a w' :
  lift o w = (Returns a, w') → o = Returns a ∧ w' = w.
Proof. unfold lift. intros [= -> ->]. done. Qed.

Lemma ret_returns {A} (a b : A) w w' :
  ret a w = (Returns b, w') → b = a ∧ w' = w.
Proof. unfold ret. intros [= -> ->]. done. Qed.

Lemma throw_returns {A} e w (a : A) w' : throw e w = (Returns a, w') → False.
Proof. unfold throw. discriminate. Qed.

Lemma stable_ret {A} (a : A) : stable (ret a).
Proof. done. Qed.

Lemma stable_throw {A} e : stable (@throw A e).
Proof. done. Qed.

Lemma stable_lift {A} (o : outcome A) : stable (lift o).
Proof. done. Qed.

Lemma stable_readBank : stable readBank.
Proof. done. Qed.

Lemma stable_randomIndex n : stable (randomIndex n).
Proof. done. Qed.

Lemma stable_bind {A B} (m : M A) (k : A → M B) :
  stable m → (∀ a, stable (k a)) → stable (m ≫= k).
Proof.
  intros Hm Hk w. unfold mbind, M_bind, bind.
  specialize (Hm w). destruct (m w) as [[a|e] w1]; simpl in *.
  - rewrite Hk. done.
  - done.
Qed.

Create HintDb stable.
#[global] Hint Resolve stable_ret stable_throw stable_lift stable_readBank
  stable_randomIndex : stable.

Lemma stable_pickQuestion unitReqs btl s : stable (pickQuestion unitReqs btl s).
Proof.
  unfold pickQuestion. destruct (availableFor unitReqs btl s) as [|q0 rest].
  - apply stable_ret.
  - apply stable_bind; [apply stable_randomIndex|]. intros idx.
    destruct (_ !! idx); eauto with stable.
Qed.
#[global] Hint Resolve stable_pickQuestion : stable.

Lemma stable_pickFixed unitReqs level count s : stable (pickFixed unitReqs level count s).
Proof.
  revert s. induction count as [|count IH]; intros s; simpl.
  - apply stable_ret.
  - apply stable_bind; [apply stable_pickQuestion|]. intros [[q|] s']; eauto with stable.
Qed.
#[global] Hint Resolve stable_pickFixed : stable.

Lemma stable_pickRandom unitReqs randomBTLs count s :
  stable (pickRandom unitReqs randomBTLs count s).
Proof.
  revert s. induction count as [|count IH]; intros s; simpl.
  - apply stable_ret.
  - apply stable_bind; [apply stable_randomIndex|]. intros i.
    destruct (randomBTLs !! i) as [btl|]; [|apply stable_throw].
    apply stable_bind; [apply stable_pickQuestion|]. intros [[q|] s']; eauto with stable.
Qed.
#[global] Hint Resolve stable_pickRandom : stable.

Lemma stable_fillRequirement index unitReqs req s :
  stable (fillRequirement index unitReqs req s).
Proof.
  unfold fillRequirement. case_bool_decide.
  - destruct (br_options req) as [options|]; [|apply stable_throw].
    destruct (feasibleBTLs _ _ _ _); eauto with stable.
  - case_bool_decide; eauto with stable.
Qed.
#[global] Hint Resolve stable_fillRequirement : stable.

Lemma stable_fillRequirements index unitReqs btlReqs s :
  stable (fillRequirements index unitReqs btlReqs s).
Proof.
  revert s. induction btlReqs as [|req btlReqs IH]; intros s; simpl.
  - apply stable_ret.
  - apply stable_bind; eauto with stable.
Qed.
#[global] Hint Resolve stable_fillRequirements : stable.

Lemma stable_selectQuestions index btlReqs unitReqs :
  stable (selectQuestions index btlReqs unitReqs).
Proof.
  unfold selectQuestions. apply stable_bind; [apply stable_readBank|].
  intros [bank|]; [|apply stable_throw].
  apply stable_bind; [apply stable_fillRequirements|]. intros s.
  apply stable_bind; [apply stable_lift|]. intros _. apply stable_ret.
Qed.
#[global] Hint Resolve stable_selectQuestions : stable.

Lemma stable_generateQuestions paperType : stable (generateQuestions paperType).
Proof.
  unfold generateQuestions. apply stable_bind; [apply stable_readBank|].
  intros [bank|]; [|apply stable_throw].
  case_bool_decide; [apply stable_throw|].
  apply stable_bind; [apply stable_lift|]. intros [index btls].
  destruct (btLevelsOf bank) as [|first rest]; [apply stable_throw|].
  apply stable_bind; [apply stable_lift|]. intros btlReqs.
  apply stable_bind; [apply stable_lift|]. intros unitReqs.
  apply stable_bind; [apply stable_selectQuestions|]. intros selected.
  case_bool_decide; eauto with stable.
Qed.

(** ** The selection invariant *)

Lemma insertBy_elem cmp x y l : x ∈ insertBy cmp y l ↔ x = y ∨ x ∈ l.
Proof.
  induction l as [|z l IH]; simpl.
  - rewrite list_elem_of_singleton. rewrite elem_of_nil. tauto.
  - case_bool_decide; rewrite !elem_of_cons; [|rewrite IH]; tauto.
Qed.

Lemma sortBy_elem cmp x l : x ∈ sortBy cmp l ↔ x ∈ l.
Proof.
  unfold sortBy. induction l as [|y l IH]; simpl; [done|].
  rewrite insertBy_elem, IH, elem_of_cons. done.
Qed.

Lemma availableFor_elem unitReqs btl s q :
  q ∈ availableFor unitReqs btl s ↔
  (q_unit q ∈ ur_unit <$> unitReqs ∧ q_btLevel q = btl
   ∧ (countOf (unitCount s) (q_unit q) < maxCountOf unitReqs (q_unit q))%nat)
  ∧ q ∈ remainingQuestions s.
Proof.
  unfold availableFor, allowedUnits. rewrite list_elem_of_filter, sortBy_elem. done.
Qed.

Lemma pickQuestion_returns unitReqs btl s w picked s' w' :
  pickQuestion unitReqs btl s w = (Returns (picked, s'), w') →
  match picked with
  | Some q => q ∈ availableFor unitReqs btl s ∧ s' = consume q s
  | None => s' = s
  end.
Proof.
  unfold pickQuestion. destruct (availableFor unitReqs btl s) as [|q0 rest] eqn:Hav.
  - intros [[= -> ->] _]%ret_returns. done.
  - intros (idx & w1 & _ & Hk)%bind_returns.
    destruct ((q0 :: rest) !! idx) as [q|] eqn:Hq.
    + apply ret_returns in Hk as [[= -> ->] _].
      split; [|done]. eapply list_elem_of_lookup_2. done.
    + by apply throw_returns in Hk.
Qed.

Lemma unitTally_snoc u qs q :
  unitTally u (qs ++ [q]) =
  (unitTally u qs + (if bool_decide (q_unit q = u) then 1 else 0))%nat.
Proof.
  unfold unitTally. rewrite filter_app, length_app. f_equal.
  rewrite filter_cons, filter_nil. case_bool_decide; case_decide; done.
Qed.

Section selection_invariant.
(** The bank and the unit-requirement table of one call of
    [selectQuestions]. *)
Context (bank : list question) (unitReqs : list unitRequirement).

Lemma selection_inv_initial :
  selection_inv bank unitReqs (initialSelection bank).
Proof.
  split; simpl.
  - intros q Hq. by apply not_elem_of_nil in Hq.
  - intros q Hq. split; [done|]. apply not_elem_of_nil.
  - constructor.
  - intros u. unfold countOf, unitTally. simpl.
    repeat (rewrite lookup_insert; case_decide; [done|]). done.
  - intros q Hq. by apply not_elem_of_nil in Hq.
  - unfold unitTally. simpl. lia.
Qed.

Lemma selection_inv_pick btl s q :
  selection_inv bank unitReqs s →
  q ∈ availableFor unitReqs btl s →
  selection_inv bank unitReqs (push q (consume q s)).
Proof.
  intros [Hsel Hrem Hnd Hun Hal Hmax] (( Hunit & Hbtl & Hlt) & Hq)%availableFor_elem.
  destruct (Hrem q Hq) as [Hbank Hfresh].
  split; simpl.
  - intros r [Hr| ->%list_elem_of_singleton]%elem_of_app; auto.
  - intros r [Hne Hr]%list_elem_of_filter. destruct (Hrem r Hr) as [? Hr'].
    split; [done|]. rewrite fmap_app, elem_of_app. simpl.
    rewrite list_elem_of_singleton. tauto.
  - rewrite fmap_app. apply NoDup_app. split_and!; [done| |apply NoDup_singleton].
    intros x Hx ->%list_elem_of_singleton. done.
  - intros u. rewrite unitTally_snoc. unfold countOf at 1.
    rewrite lookup_insert. case_decide; case_bool_decide; try congruence; simpl.
    + subst u. rewrite Hun. lia.
    + fold (countOf (unitCount s) u). rewrite Hun. lia.
  - intros r [Hr| ->%list_elem_of_singleton]%elem_of_app; auto.
  - intros u. rewrite unitTally_snoc. case_bool_decide as Hu.
    + subst u. rewrite Hun in Hlt. lia.
    + intros ?. rewrite Nat.add_0_r in *. auto.
Qed.

Lemma pickFixed_returns level count s w s' w' :
  pickFixed unitReqs level count s w = (Returns s', w') →
  selection_inv bank unitReqs s →
  selection_inv bank unitReqs s' ∧
  ∃ group, selectedQuestions s' = selectedQuestions s ++ group
           ∧ length group = count
           ∧ Forall (λ q, q_btLevel q = level) group.
Proof.
  revert s w. induction count as [|count IH]; intros s w; simpl.
  - intros [-> _]%ret_returns Hinv. split; [done|].
    exists []. by rewrite app_nil_r.
  - intros ([picked s1] & w1 & Hpick & Hk)%bind_returns Hinv.
    apply pickQuestion_returns in Hpick. destruct picked as [q|].
    + destruct Hpick as [Hq ->].
      pose proof Hq as (( _ & Hbtl & _) & _)%availableFor_elem.
      apply IH in Hk as [Hinv' (group & Hsel & Hlen & Hall)];
        [|by eapply selection_inv_pick].
      split; [done|]. exists (q :: group). simpl in Hsel.
      rewrite Hsel, <- app_assoc. simpl. split_and!; [done|by f_equal|by constructor].
    + by apply throw_returns in Hk.
Qed.

Lemma pickRandom_returns randomBTLs count s w s' w' :
  pickRandom unitReqs randomBTLs count s w = (Returns s', w') →
  selection_inv bank unitReqs s →
  selection_inv bank unitReqs s' ∧
  ∃ group, selectedQuestions s' = selectedQuestions s ++ group
           ∧ length group = count
           ∧ Forall (λ q, q_btLevel q ∈ randomBTLs) group.
Proof.
  revert s w. induction count as [|count IH]; intros s w; simpl.
  - intros [-> _]%ret_returns Hinv. split; [done|].
    exists []. by rewrite app_nil_r.
  - intros (i & w1 & _ & Hk)%bind_returns Hinv.
    destruct (randomBTLs !! i) as [btl|] eqn:Hbtl; [|by apply throw_returns in Hk].
    apply bind_returns in Hk as ([picked s1] & w2 & Hpick & Hk).
    apply pickQuestion_returns in Hpick. destruct picked as [q|].
    + destruct Hpick as [Hq ->].
      pose proof Hq as (( _ & Hlevel & _) & _)%availableFor_elem.
      apply IH in Hk as [Hinv' (group & Hsel & Hlen & Hall)];
        [|by eapply selection_inv_pick].
      split; [done|]. exists (q :: group). simpl in Hsel.
      rewrite Hsel, <- app_assoc. simpl. split_and!; [done|by f_equal|].
      constructor; [|done]. rewrite Hlevel. by eapply list_elem_of_lookup_2.
    + by apply throw_returns in Hk.
Qed.

Lemma feasibleBTLs_elem index s options btl :
  btl ∈ feasibleBTLs index unitReqs s options → btl ∈ options.
Proof.
  unfold feasibleBTLs. rewrite !list_elem_of_In, filter_In. tauto.
Qed.

Lemma fillRequirement_returns index req s w s' w' :
  fillRequirement index unitReqs req s w = (Returns s', w') →
  selection_inv bank unitReqs s →
  selection_inv bank unitReqs s' ∧
  ∃ group, selectedQuestions s' = selectedQuestions s ++ group
           ∧ length group = br_count req
           ∧ Forall (meets req) group.
Proof.
  unfold fillRequirement, meets. case_bool_decide as Hrandom.
  - destruct (br_options req) as [options|]; [|by intros ?%throw_returns].
    destruct (feasibleBTLs index unitReqs s options) as [|b bs] eqn:Hfeasible;
      [by intros ?%throw_returns|].
    intros Hrun Hinv.
    eapply pickRandom_returns in Hrun as [Hinv' (group & Hsel & Hlen & Hall)]; [|done].
    split; [done|]. exists group. split_and!; [done..|].
    eapply Forall_impl; [done|]. intros q Hq. exists options. split; [done|].
    eapply feasibleBTLs_elem. by rewrite Hfeasible.
  - case_bool_decide; [by intros ?%throw_returns|].
    intros Hrun Hinv. by eapply pickFixed_returns in Hrun.
Qed.

Lemma fillRequirements_returns index btlReqs s w s' w' :
  fillRequirements index unitReqs btlReqs s w = (Returns s', w') →
  selection_inv bank unitReqs s →
  selection_inv bank unitReqs s' ∧
  ∃ qs, selectedQuestions s' = selectedQuestions s ++ qs ∧ fills btlReqs qs.
Proof.
  revert s w. induction btlReqs as [|req btlReqs IH]; intros s w; simpl.
  - intros [-> _]%ret_returns Hinv. split; [done|].
    exists []. rewrite app_nil_r. split; [done|constructor].
  - intros (s1 & w1 & Hreq & Hk)%bind_returns Hinv.
    eapply fillRequirement_returns in Hreq as [Hinv1 (group & Hsel1 & Hlen & Hall)]; [|done].
    apply IH in Hk as [Hinv' (qs & Hsel & Hfills)]; [|done].
    split; [done|]. exists (group ++ qs). rewrite Hsel, Hsel1, <- app_assoc.
    split; [done|by constructor].
Qed.

End selection_invariant.

Lemma validateUnitMinimums_returns reqs s :
  validateUnitMinimums reqs s = Returns () →
  ∀ req, req ∈ reqs → (ur_minCount req ≤ countOf (unitCount s) (ur_unit req))%nat.
Proof.
  induction reqs as [|r reqs IH]; simpl.
  - intros _ req Hreq. by apply not_elem_of_nil in Hreq.
  - case_bool_decide; [done|]. intros Hrest req [->|Hreq]%elem_of_cons; [lia|auto].
Qed.

Lemma selectQuestions_returns index btlReqs unitReqs w selected w' :
  selectQuestions index btlReqs unitReqs w = (Returns selected, w') →
  ∃ bank s, questionBank w = Some bank
            ∧ selection_inv bank unitReqs s
            ∧ selected = selectedQuestions s
            ∧ fills btlReqs selected
            ∧ validateUnitMinimums unitReqs s = Returns ().
Proof.
  unfold selectQuestions. intros (bank & w1 & Hbank & Hk)%bind_returns.
  unfold readBank in Hbank. injection Hbank as <- <-.
  destruct (questionBank w) as [bank|] eqn:Hw; [|by apply throw_returns in Hk].
  apply bind_returns in Hk as (s & w2 & Hfill & Hk).
  apply bind_returns in Hk as ([] & w3 & [Hval _]%lift_returns & [-> _]%ret_returns).
  eapply fillRequirements_returns in Hfill as [Hinv (qs & Hsel & Hfills)];
    [|apply selection_inv_initial].
  exists bank, s. simpl in Hsel. subst qs. done.
Qed.

(** Everything a successful call went through. *)
Lemma generateQuestions_returns paperType w selected w' :
  generateQuestions paperType w = (Returns selected, w') →
  ∃ bank index btls first rest btlReqs unitReqs s,
    questionBank w = Some bank
    ∧ (6 ≤ length bank)%nat
    ∧ assessAvailable bank = Returns (index, btls)
    ∧ btLevelsOf bank = first :: rest
    ∧ btlRequirements (mathMax first rest) btls = Returns btlReqs
    ∧ unitRequirements paperType = Returns unitReqs
    ∧ selection_inv bank unitReqs s
    ∧ selected = selectedQuestions s
    ∧ fills btlReqs selected
    ∧ validateUnitMinimums unitReqs s = Returns ()
    ∧ length selected = 6%nat.
Proof.
  unfold generateQuestions. intros (bank & w1 & Hbank & Hk)%bind_returns.
  unfold readBank in Hbank. injection Hbank as <- <-.
  destruct (questionBank w) as [bank|] eqn:Hw; [|by apply throw_returns in Hk].
  case_bool_decide as Hlen; [by apply throw_returns in Hk|].
  apply bind_returns in Hk as ([index btls] & w2 & [Hidx ->]%lift_returns & Hk).
  destruct (btLevelsOf bank) as [|first rest] eqn:Hlevels; [by apply throw_returns in Hk|].
  apply bind_returns in Hk as (btlReqs & w3 & [Hbtl ->]%lift_returns & Hk).
  apply bind_returns in Hk as (unitReqs & w4 & [Hunit ->]%lift_returns & Hk).
  apply bind_returns in Hk as (sel & w5 & Hsel & Hk).
  case_bool_decide as Hsix; [by apply throw_returns in Hk|].
  apply ret_returns in Hk as [-> _].
  apply selectQuestions_returns in Hsel as (bank' & s & Hw' & Hinv & -> & Hfills & Hval).
  rewrite Hw in Hw'. injection Hw' as <-.
  exists bank, index, btls, first, rest, btlReqs, unitReqs, s.
  split_and!; first [done | lia].
Qed.

(** ** Shape of a filled scheme *)

Lemma fills_nil_inv qs : fills [] qs → qs = [].
Proof. by inversion 1. Qed.

Lemma fills_cons_inv req reqs qs :
  fills (req :: reqs) qs →
  ∃ group rest, qs = group ++ rest ∧ length group = br_count req
                ∧ Forall (meets req) group ∧ fills reqs rest.
Proof.
  inversion 1 as [|? ? group rest Hlen Hall Hrest]; subst.
  exists group, rest. done.
Qed.

Lemma fills_length reqs qs :
  fills reqs qs → length qs = sum_list (br_count <$> reqs).
Proof.
  induction 1 as [|req reqs group rest Hlen _ _ IH]; simpl; [done|].
  by rewrite length_app, Hlen, IH.
Qed.

Lemma meets_fixed level count q :
  level ≠ "random" →
  meets {| br_level := level; br_options := None; br_count := count |} q →
  q_btLevel q = level.
Proof. unfold meets. simpl. intros Hne. by rewrite bool_decide_false. Qed.

Lemma meets_random options count q :
  meets {| br_level := "random"; br_options := Some options; br_count := count |} q →
  q_btLevel q ∈ options.
Proof. unfold meets. simpl. by intros (? & [= <-] & ?). Qed.

Ltac list_of_length l :=
  repeat match goal with
         | H : length l = S _ |- _ =>
             let q := fresh "q" in destruct l as [|q l]; [discriminate H|];
             simpl in H; apply Nat.succ_inj in H
         | H : length l = O |- _ => apply nil_length_inv in H; subst l
         end.

Lemma fills_schemeA selected :
  fills schemeA selected →
  ∃ a b c d e f,
    selected = [a; b; c; d; e; f]
    ∧ q_btLevel a = "2" ∧ q_btLevel b = "2"
    ∧ q_btLevel c = "3" ∧ q_btLevel d = "3"
    ∧ q_btLevel e = "4"
    ∧ q_btLevel f ∈ ["1"; "5"; "6"].
Proof.
  unfold schemeA.
  intros (g2 & r2 & -> & L2 & M2 & H)%fills_cons_inv.
  apply fills_cons_inv in H as (g3 & r3 & -> & L3 & M3 & H).
  apply fills_cons_inv in H as (g4 & r4 & -> & L4 & M4 & H).
  apply fills_cons_inv in H as (gr & r5 & -> & Lr & Mr & ->%fills_nil_inv).
  simpl in *. list_of_length g2. list_of_length g3. list_of_length g4. list_of_length gr.
  repeat match goal with H : Forall _ (_ :: _) |- _ => apply Forall_cons in H as [? H] end.
  repeat match goal with
         | H : meets _ _ |- _ => first [apply meets_fixed in H; [|done] | apply meets_random in H]
         end.
  eauto 20.
Qed.

(** ** Counting by unit *)

Lemma unitTally_cons u q qs :
  unitTally u (q :: qs) =
  ((if bool_decide (q_unit q = u) then 1 else 0) + unitTally u qs)%nat.
Proof.
  unfold unitTally. rewrite filter_cons. case_decide; case_bool_decide; done.
Qed.

Lemma unitTally_absent u qs :
  (∀ q, q ∈ qs → q_unit q ≠ u) → unitTally u qs = 0%nat.
Proof.
  induction qs as [|q qs IH]; intros Hqs; [done|].
  rewrite unitTally_cons, bool_decide_false, IH; [done| |].
  - intros r Hr. apply Hqs. by right.
  - apply Hqs. by left.
Qed.

Lemma sum_list_fmap_add {A} (f g : A → nat) (l : list A) :
  sum_list ((λ x, f x + g x)%nat <$> l) = (sum_list (f <$> l) + sum_list (g <$> l))%nat.
Proof. induction l as [|x l IH]; csimpl; [done|]. rewrite IH. lia. Qed.

Lemma sum_indicator_absent (x : Z) (units : list Z) :
  x ∉ units →
  sum_list ((λ u, if bool_decide (x = u) then 1 else 0)%nat <$> units) = 0%nat.
Proof.
  induction units as [|u units IH]; csimpl; [done|].
  intros [Hne Hnotin]%not_elem_of_cons. by rewrite bool_decide_false, IH.
Qed.

Lemma sum_indicator_present (x : Z) (units : list Z) :
  NoDup units → x ∈ units →
  sum_list ((λ u, if bool_decide (x = u) then 1 else 0)%nat <$> units) = 1%nat.
Proof.
  induction 1 as [|u units Hnotin Hnd IH]; csimpl.
  - intros Hx. by apply not_elem_of_nil in Hx.
  - intros [->|Hx]%elem_of_cons.
    + by rewrite bool_decide_true, sum_indicator_absent.
    + rewrite bool_decide_false, IH; [done..|]. intros ->. done.
Qed.

(** Questions that all lie in [units] are counted once each by the tallies
    of the distinct units. *)
Lemma length_by_units (units : list Z) (qs : list question) :
  NoDup units →
  (∀ q, q ∈ qs → q_unit q ∈ units) →
  length qs = sum_list ((λ u, unitTally u qs) <$> units).
Proof.
  intros Hnd. induction qs as [|q qs IH]; intros Hqs.
  - clear Hnd Hqs. induction units as [|u units IHu]; csimpl; [done|].
    by rewrite <- IHu.
  - erewrite (list_fmap_ext _ (λ u, (if bool_decide (q_unit q = u) then 1 else 0)
                                    + unitTally u qs)%nat);
      [|intros ? u _; apply unitTally_cons].
    rewrite (sum_list_fmap_add (λ u, if bool_decide (q_unit q = u) then 1%nat else 0%nat)).
    rewrite sum_indicator_present, <- IH; [done| |done|].
    + intros r Hr. apply Hqs. by right.
    + apply Hqs. by left.
Qed.

(** Membership in, and distinctness of, a list written out in full. *)
Ltac elem_of_explicit :=
  repeat first [apply list_elem_of_here | apply list_elem_of_further].
Ltac nodup_explicit :=
  apply (bool_decide_unpack _); vm_compute; exact I.

(** What a successful call guarantees about its unit-requirement table. *)
Lemma generateQuestions_unit_table paperType w selected w' unitReqs :
  generateQuestions paperType w = (Returns selected, w') →
  unitRequirements paperType = Returns unitReqs →
  (∀ req, req ∈ unitReqs → (ur_minCount req ≤ unitTally (ur_unit req) selected)%nat)
  ∧ (∀ u, (unitTally u selected ≤ maxCountOf unitReqs u)%nat)
  ∧ (∀ u, u ∉ ur_unit <$> unitReqs → unitTally u selected = 0%nat)
  ∧ (NoDup (ur_unit <$> unitReqs) →
     sum_list ((λ u, unitTally u selected) <$> (ur_unit <$> unitReqs)) = 6%nat).
Proof.
  intros (bank & index & btls & first & rest & btlReqs & unitReqs' & s & Hw & Hlen & Hidx
          & Hlv & Hbtl & Hunit & Hinv & -> & Hfills & Hval & Hsix)%generateQuestions_returns.
  rewrite Hunit. intros [= ->]. destruct Hinv as [Hsel Hrem Hnd Hun Hal Hmax].
  split_and!.
  - intros req Hreq. rewrite <- Hun. by eapply validateUnitMinimums_returns.
  - intros u. destruct (decide (0 < unitTally u (selectedQuestions s))%nat); [auto|lia].
  - intros u Hu. apply unitTally_absent. intros q Hq <-. auto.
  - intros Hnodup. rewrite <- length_by_units; done.
Qed.

(** ** Results of a successful generation *)

(** C1: whenever [generateQuestions] returns, whatever the paper type and
    the bank, the selection has exactly six questions, each of them is a
    member of the bank (which the call left in place), and their
    identifiers are pairwise distinct. *)
Theorem generateQuestions_six_distinct_members paperType w selected w' :
  generateQuestions paperType w = (Returns selected, w') →
  ∃ bank, questionBank w = Some bank
          ∧ questionBank w' = Some bank
          ∧ length selected = 6%nat
          ∧ (∀ q, q ∈ selected → q ∈ bank)
          ∧ NoDup (q_id <$> selected).
Proof.
  intros Hrun. pose proof (stable_generateQuestions paperType w) as Hstable.
  rewrite Hrun in Hstable. simpl in Hstable.
  apply generateQuestions_returns in Hrun
    as (bank & index & btls & first & rest & btlReqs & unitReqs & s & Hw & _ & _ & _ & _ & _
        & [Hsel _ Hnd _ _ _] & -> & _ & _ & Hsix).
  exists bank. rewrite Hstable. done.
Qed.

Lemma generateQuestions_six_distinct_members_witness :
  generateQuestions "mid1" (sampleWorld (Some sampleBank) 0)
  = (Returns sampleSelection, sampleWorld (Some sampleBank) 7)
  ∧ ∃ bank, questionBank (sampleWorld (Some sampleBank) 0) = Some bank
            ∧ questionBank (sampleWorld (Some sampleBank) 7) = Some bank
            ∧ length sampleSelection = 6%nat
            ∧ (∀ q, q ∈ sampleSelection → q ∈ bank)
            ∧ NoDup (q_id <$> sampleSelection).
Proof.
  split; [vm_compute; reflexivity|].
  apply (generateQuestions_six_distinct_members "mid1"
           (sampleWorld (Some sampleBank) 0) sampleSelection
           (sampleWorld (Some sampleBank) 7)).
  vm_compute. reflexivity.
Defined.

(** C2: whenever [generateQuestions] returns, the numbers of selected
    questions per unit follow the table of the paper type.  For "mid1":
    two or three from unit 1, two or three from unit 2, exactly one from
    unit 3, none from any other unit, six in all.  For "mid2": the same
    with units 4, 5 and 3.  For "special": one or two from each of the
    units 1 to 5, none from any other unit, six in all. *)
Theorem generateQuestions_unit_counts paperType w selected w' :
  generateQuestions paperType w = (Returns selected, w') →
  (paperType = "mid1" →
     (2 ≤ unitTally 1 selected ≤ 3)%nat
     ∧ (2 ≤ unitTally 2 selected ≤ 3)%nat
     ∧ unitTally 3 selected = 1%nat
     ∧ (∀ u, u ∉ [1; 2; 3] → unitTally u selected = 0%nat)
     ∧ (unitTally 1 selected + unitTally 2 selected + unitTally 3 selected = 6)%nat)
  ∧ (paperType = "mid2" →
     (2 ≤ unitTally 4 selected ≤ 3)%nat
     ∧ (2 ≤ unitTally 5 selected ≤ 3)%nat
     ∧ unitTally 3 selected = 1%nat
     ∧ (∀ u, u ∉ [4; 5; 3] → unitTally u selected = 0%nat)
     ∧ (unitTally 4 selected + unitTally 5 selected + unitTally 3 selected = 6)%nat)
  ∧ (paperType = "special" →
     (∀ u, u ∈ [1; 2; 3; 4; 5] → (1 ≤ unitTally u selected ≤ 2)%nat)
     ∧ (∀ u, u ∉ [1; 2; 3; 4; 5] → unitTally u selected = 0%nat)
     ∧ (unitTally 1 selected + unitTally 2 selected + unitTally 3 selected
        + unitTally 4 selected + unitTally 5 selected = 6)%nat).
Proof.
  intros Hrun. split_and!; intros ->.
  1, 2: eapply generateQuestions_unit_table in Hrun as (Hmin & Hmax & Hout & Hsum);
    [|reflexivity];
    pose proof (Hmin _ (list_elem_of_here _ _)) as H1;
    pose proof (Hmin _ (list_elem_of_further _ _ _ (list_elem_of_here _ _))) as H2;
    pose proof (Hmin _ (list_elem_of_further _ _ _
                          (list_elem_of_further _ _ _ (list_elem_of_here _ _)))) as H3;
    match goal with
    | |- (_ ≤ unitTally ?a _ ≤ _)%nat ∧ (_ ≤ unitTally ?b _ ≤ _)%nat
         ∧ unitTally ?c _ = _ ∧ _ =>
        pose proof (Hmax a) as M1; pose proof (Hmax b) as M2; pose proof (Hmax c) as M3
    end;
    unfold maxCountOf in *; simpl in *;
    specialize (Hsum ltac:(nodup_explicit));
    split_and!; try lia; exact Hout.
  - eapply generateQuestions_unit_table in Hrun as (Hmin & Hmax & Hout & Hsum); [|reflexivity].
    specialize (Hsum ltac:(nodup_explicit)). simpl in Hsum.
    split_and!; [|exact Hout|lia].
    intros u Hu. specialize (Hmax u). unfold maxCountOf in Hmax.
    repeat (apply elem_of_cons in Hu as [->|Hu];
            [ match goal with
              | |- (_ ≤ unitTally ?v _ ≤ _)%nat =>
                  specialize (Hmin {| ur_unit := v; ur_minCount := 1; ur_maxCount := 2 |}
                                ltac:(elem_of_explicit))
              end; simpl in *; lia |]).
    by apply not_elem_of_nil in Hu.
Qed.

Lemma generateQuestions_unit_counts_witness :
  generateQuestions "mid1" (sampleWorld (Some sampleBank) 0)
  = (Returns sampleSelection, sampleWorld (Some sampleBank) 7)
  ∧ (2 ≤ unitTally 1 sampleSelection ≤ 3)%nat
  ∧ (2 ≤ unitTally 2 sampleSelection ≤ 3)%nat
  ∧ unitTally 3 sampleSelection = 1%nat.
Proof.
  split; [vm_compute; reflexivity|].
  destruct (generateQuestions_unit_counts "mid1"
              (sampleWorld (Some sampleBank) 0) sampleSelection
              (sampleWorld (Some sampleBank) 7)) as [Hmid1 _].
  - vm_compute. reflexivity.
  - destruct (Hmid1 eq_refl) as (H1 & H2 & H3 & _). auto.
Defined.

(** C3: when the maximum level of the bank, read as an integer, is 6, a
    selection that [generateQuestions] returns holds exactly two questions
    of level "2", exactly two of level "3", exactly one of level "4", and
    exactly one whose level is among "1", "5" and "6". *)
Theorem generateQuestions_schemeA_levels paperType w bank selected w' :
  questionBank w = Some bank →
  maxBTLOf bank = Some 6 →
  generateQuestions paperType w = (Returns selected, w') →
  levelTally "2" selected = 2%nat
  ∧ levelTally "3" selected = 2%nat
  ∧ levelTally "4" selected = 1%nat
  ∧ length (filter (λ q, q_btLevel q ∈ ["1"; "5"; "6"]) selected) = 1%nat.
Proof.
  intros Hbank Hmax
    (bank' & index & btls & first & rest & btlReqs & unitReqs & s & Hw & _ & _ & Hlv & Hbtl
     & _ & _ & Hsel & Hfills & _ & _)%generateQuestions_returns.
  rewrite Hbank in Hw. injection Hw as <-.
  unfold maxBTLOf in Hmax. rewrite Hlv in Hmax. injection Hmax as Hmax.
  rewrite Hmax in Hbtl. injection Hbtl as <-.
  apply fills_schemeA in Hfills
    as (a & b & c & d & e & f & -> & Ha & Hb & Hc & Hd & He & Hf).
  unfold levelTally. rewrite !filter_cons, !filter_nil, Ha, Hb, Hc, Hd, He.
  apply elem_of_cons in Hf as [->|Hf]; [by vm_compute|].
  apply elem_of_cons in Hf as [->|Hf]; [by vm_compute|].
  apply elem_of_cons in Hf as [->|Hf]; [by vm_compute|].
  by apply not_elem_of_nil in Hf.
Qed.

Lemma generateQuestions_schemeA_levels_witness :
  (questionBank (sampleWorld (Some sampleBank) 0) = Some sampleBank
   ∧ maxBTLOf sampleBank = Some 6
   ∧ generateQuestions "mid1" (sampleWorld (Some sampleBank) 0)
     = (Returns sampleSelection, sampleWorld (Some sampleBank) 7))
  ∧ levelTally "2" sampleSelection = 2%nat
  ∧ levelTally "3" sampleSelection = 2%nat
  ∧ levelTally "4" sampleSelection = 1%nat
  ∧ length (filter (λ q, q_btLevel q ∈ ["1"; "5"; "6"]) sampleSelection) = 1%nat.
Proof.
  split; [split_and!; vm_compute; reflexivity|].
  apply (generateQuestions_schemeA_levels "mid1" (sampleWorld (Some sampleBank) 0)
           sampleBank sampleSelection (sampleWorld (Some sampleBank) 7)).
  - reflexivity.
  - vm_compute. reflexivity.
  - vm_compute. reflexivity.
Defined.

(** ** Normalisation of spreadsheet rows *)

Lemma normalizeRow_returns r index q :
  normalizeRow r index = Returns q →
  q_id q = (index + 1)%nat
  ∧ q_unit q = unitOf r
  ∧ q_btLevel q = (if bool_decide (btLevelOf r = "") then "0" else btLevelOf r).
Proof.
  unfold normalizeRow.
  destruct (if truthy (row_ImageUrl r) then _ else _) as [imageUrl|e]; [|done].
  intros [= <-]. done.
Qed.

(** Each record [data.map] produces comes from the row at its position. *)
Lemma mapRows_elem data index qs q :
  mapRows data index = Returns qs →
  q ∈ qs →
  ∃ i r, data !! i = Some r ∧ normalizeRow r (index + i) = Returns q.
Proof.
  revert index qs. induction data as [|r data IH]; intros index qs; simpl.
  - intros [= <-] Hq. by apply not_elem_of_nil in Hq.
  - destruct (normalizeRow r index) as [q0|e] eqn:Hrow; [|done].
    destruct (mapRows data (S index)) as [qs'|e] eqn:Hrest; [|done].
    intros [= <-] [->|Hq]%elem_of_cons.
    + exists 0%nat, r. by rewrite Nat.add_0_r.
    + destruct (IH _ _ Hrest Hq) as (i & r' & Hi & Hr').
      exists (S i), r'. split; [done|]. by rewrite Nat.add_succ_r.
Qed.

(** C4: the code departs from the claim on rows whose level is zero or
    does not parse.  A row of unit 2 whose level cell reads "abc", which is
    no number, is kept in the bank, and so is one whose level cell reads
    "00", which is zero: the label is compared with the text "0" and never
    parsed.  The unit beside it is parsed, and a row whose unit cell reads
    "abc" is dropped. *)
Lemma processExcelData_keeps_unparseable_level :
  parseInt (btLevelOf (sampleRow (JNumber 2) (JString "abc"))) = None
  ∧ parseInt (btLevelOf (sampleRow (JNumber 2) (JString "00"))) = Some 0
  ∧ processExcelData [sampleRow (JNumber 2) (JString "abc");
                      sampleRow (JNumber 2) (JString "00")]
    = Returns [sampleQuestion 1 2 "abc"; sampleQuestion 2 2 "00"]
  ∧ processExcelData [sampleRow (JString "abc") (JNumber 2)] = Returns [].
Proof. vm_compute. done. Qed.

(** ** The image proxy *)

(** C5 (amended): for a request with a non-empty url, when the fetch fails,
    or its response carries no content type, the answer is the fixed
    placeholder data URL in the success shape with status 200; when the
    content type is present and does not start with "image/", the answer
    is status 400 with the error "URL does not point to an image" and the
    content type. *)
Theorem imageProxyHandler_fallback url fetch :
  url ≠ "" →
  (fetch (getDirectImageURL url) = None
   ∨ (∃ r, fetch (getDirectImageURL url) = Some r ∧ f_contentType r = None) →
   imageProxyHandler (Some url) fetch = {| status := 200; json := DataUrlBody placeholder |})
  ∧ (∀ r contentType,
       fetch (getDirectImageURL url) = Some r →
       f_contentType r = Some contentType →
       startsWith contentType "image/" = false →
       imageProxyHandler (Some url) fetch
       = {| status := 400;
            json := ErrorContentTypeBody "URL does not point to an image" contentType |}).
Proof.
  intros Hurl. unfold imageProxyHandler. rewrite bool_decide_false by done. split.
  - intros [->|(r & -> & ->)]; done.
  - intros r contentType -> -> ->. done.
Qed.

Lemma imageProxyHandler_fallback_witness :
  "https://example.com/figure.png" ≠ ""
  ∧ imageProxyHandler (Some "https://example.com/figure.png") (λ _, None)
    = {| status := 200; json := DataUrlBody placeholder |}.
Proof.
  split; [intros [=]|].
  apply (imageProxyHandler_fallback "https://example.com/figure.png" (λ _, None));
    [intros [=]|]. left. reflexivity.
Defined.

(** C5 as stated fails: a page served as "text/html" is answered with
    status 400 and an error body, not with the placeholder. *)
Lemma imageProxyHandler_non_image_is_400 :
  imageProxyHandler (Some "https://example.com/page")
    (λ _, Some {| f_contentType := Some "text/html"; f_base64 := "PGh0bWw+" |})
  = {| status := 400;
       json := ErrorContentTypeBody "URL does not point to an image" "text/html" |}.
Proof. vm_compute. reflexivity. Qed.

(** ** Rejections of [generateQuestions] *)

Lemma unitRequirements_invalid paperType :
  paperType ∉ ["mid1"; "mid2"; "special"] →
  unitRequirements paperType = Throws InvalidPaperType.
Proof.
  intros Hnot. unfold unitRequirements.
  repeat (case_bool_decide; [subst; exfalso; apply Hnot; elem_of_explicit|]).
  done.
Qed.

(** With an invalid paper type the call throws, having changed nothing. *)
Lemma generateQuestions_invalid_throws paperType w :
  paperType ∉ ["mid1"; "mid2"; "special"] →
  ∃ e, generateQuestions paperType w = (Throws e, w).
Proof.
  intros Hnot. unfold generateQuestions, mbind, M_bind, bind, readBank, lift, throw.
  destruct (questionBank w) as [bank|]; [|eauto].
  case_bool_decide; [eauto|].
  destruct (assessAvailable bank) as [[index btls]|e]; [|eauto].
  destruct (btLevelsOf bank) as [|first rest]; [eauto|].
  destruct (btlRequirements _ btls) as [btlReqs|e]; [|eauto].
  rewrite unitRequirements_invalid by done. eauto.
Qed.

(** C6 (amended): a generation request whose paper type is none of "mid1",
    "mid2" and "special" is always answered with an error body, status 400
    or 500, and leaves the process state as it was; when a bank of at least
    six questions is loaded and its levels resolve to a scheme, the answer
    is status 500 with the message "Error generating questions: Invalid
    paper type". *)
Theorem generateHandler_invalid_paper_type paperType w :
  paperType ∉ ["mid1"; "mid2"; "special"] →
  (∃ code msg, generateHandler paperType w = ({| status := code; json := ErrorBody msg |}, w)
               ∧ (code = 400%nat ∨ code = 500%nat))
  ∧ (∀ bank index btls m btlReqs,
       questionBank w = Some bank →
       (6 ≤ length bank)%nat →
       assessAvailable bank = Returns (index, btls) →
       maxBTLOf bank = Some m →
       btlRequirements m btls = Returns btlReqs →
       generateHandler paperType w
       = ({| status := 500;
             json := ErrorBody "Error generating questions: Invalid paper type" |}, w)).
Proof.
  intros Hnot. split.
  - destruct (generateQuestions_invalid_throws paperType w Hnot) as [e He].
    unfold generateHandler. destruct (questionBank w); [rewrite He|]; eauto 10.
  - intros bank index btls m btlReqs Hw Hlen Hidx Hmax Hbtl.
    unfold generateHandler, generateQuestions, mbind, M_bind, bind, readBank, lift.
    rewrite Hw. rewrite bool_decide_false by lia. rewrite Hidx.
    unfold maxBTLOf in Hmax. destruct (btLevelsOf bank) as [|first rest]; [done|].
    injection Hmax as ->. rewrite Hbtl. rewrite unitRequirements_invalid; done.
Qed.

Lemma generateHandler_invalid_paper_type_witness :
  ("final" ∉ ["mid1"; "mid2"; "special"])
  ∧ (∃ code msg,
       generateHandler "final" (sampleWorld (Some sampleBank) 0)
       = ({| status := code; json := ErrorBody msg |}, sampleWorld (Some sampleBank) 0)
       ∧ (code = 400%nat ∨ code = 500%nat))
  ∧ generateHandler "final" (sampleWorld (Some sampleBank) 0)
    = ({| status := 500;
          json := ErrorBody "Error generating questions: Invalid paper type" |},
       sampleWorld (Some sampleBank) 0).
Proof.
  assert ("final" ∉ ["mid1"; "mid2"; "special"]) as Hnot.
  { apply (bool_decide_unpack _). vm_compute. exact I. }
  split; [exact Hnot|].
  destruct (generateHandler_invalid_paper_type "final"
              (sampleWorld (Some sampleBank) 0) Hnot) as [Herror Hloaded].
  split; [exact Herror|].
  destruct (assessAvailable sampleBank) as [[index btls]|e] eqn:Hindex;
    [|vm_compute in Hindex; discriminate Hindex].
  apply (Hloaded sampleBank index btls 6 schemeA);
    [reflexivity|simpl; lia|exact Hindex|vm_compute; reflexivity|reflexivity].
Defined.

(** C6 as stated fails: with a bank loaded, the invalid token "final" is
    answered with status 500, not with a 4xx status. *)
Lemma invalid_token_answered_500 :
  generateHandler "final" (sampleWorld (Some sampleBank) 0)
  = ({| status := 500;
        json := ErrorBody "Error generating questions: Invalid paper type" |},
     sampleWorld (Some sampleBank) 0).
Proof. vm_compute. reflexivity. Qed.

(** C8: [generateQuestions] never changes the question bank: after a call,
    for every paper type and every state of the process (bank loaded or
    not), whether the call returned or threw, [questionBank] holds what it
    held before. *)
Theorem generateQuestions_preserves_bank paperType w :
  questionBank (generateQuestions paperType w).2 = questionBank w.
Proof. apply stable_generateQuestions. Qed.

(** C9: with a bank of fewer than six questions loaded, [generateQuestions]
    throws "Insufficient questions in question bank. At least 6 questions
    are required." for every paper type, valid or not, and whatever the
    levels of the bank, without drawing a random number. *)
Theorem generateQuestions_small_bank paperType w bank :
  questionBank w = Some bank →
  (length bank < 6)%nat →
  generateQuestions paperType w = (Throws InsufficientBank, w)
  ∧ message InsufficientBank
    = "Insufficient questions in question bank. At least 6 questions are required.".
Proof.
  intros Hw Hlen. split; [|reflexivity].
  unfold generateQuestions, mbind, M_bind, bind, readBank, throw.
  rewrite Hw. by rewrite bool_decide_true.
Qed.

Lemma generateQuestions_small_bank_witness :
  (questionBank (sampleWorld (Some [sampleQuestion 1 1 "constructor"]) 0)
   = Some [sampleQuestion 1 1 "constructor"]
   ∧ (length [sampleQuestion 1 1 "constructor"] < 6)%nat)
  ∧ generateQuestions "final" (sampleWorld (Some [sampleQuestion 1 1 "constructor"]) 0)
    = (Throws InsufficientBank, sampleWorld (Some [sampleQuestion 1 1 "constructor"]) 0)
  ∧ message InsufficientBank
    = "Insufficient questions in question bank. At least 6 questions are required.".
Proof.
  split; [split; [reflexivity|simpl; lia]|].
  apply (generateQuestions_small_bank "final"
           (sampleWorld (Some [sampleQuestion 1 1 "constructor"]) 0)
           [sampleQuestion 1 1 "constructor"]).
  - reflexivity.
  - simpl. lia.
Defined.

(** ** The availability index *)

Lemma setAdd_elem x y s : x ∈ setAdd y s ↔ x = y ∨ x ∈ s.
Proof.
  unfold setAdd. case_bool_decide as Hy.
  - split; [auto|]. intros [->|?]; done.
  - rewrite elem_of_app, list_elem_of_singleton. tauto.
Qed.

Lemma setAdd_NoDup y s : NoDup s → NoDup (setAdd y s).
Proof.
  intros Hs. unfold setAdd. case_bool_decide as Hy; [done|].
  apply NoDup_app. split_and!; [done| |apply NoDup_singleton].
  intros x Hx ->%list_elem_of_singleton. done.
Qed.

Lemma indexUnit_returns qs byBTL btls byBTL' btls' :
  indexUnit qs byBTL btls = Returns (byBTL', btls') →
  (∀ l, l ∈ btls' ↔ l ∈ btls ∨ ∃ q, q ∈ qs ∧ q_btLevel q = l)
  ∧ (NoDup btls → NoDup btls')
  ∧ (∀ l, (∀ q, q ∈ qs → q_btLevel q ≠ l) → byBTL' !! l = byBTL !! l).
Proof.
  revert byBTL btls. induction qs as [|q qs IH]; intros byBTL btls; simpl.
  - intros [= <- <-]. split_and!; [|done..].
    intros l. split; [auto|]. intros [?|(q & Hq & _)]; [done|].
    by apply not_elem_of_nil in Hq.
  - intros Hrun.
    assert (∃ arr, indexUnit qs (<[q_btLevel q := arr]> byBTL) (setAdd (q_btLevel q) btls)
                   = Returns (byBTL', btls')) as [arr Hrest].
    { destruct (getProp byBTL (q_btLevel q)); [eauto|done|eauto]. }
    destruct (IH _ _ Hrest) as (Helem & Hnodup & Hlookup). split_and!.
    + intros l. rewrite Helem, setAdd_elem. split.
      * intros [[->|?]|(r & Hr & Hl)]; [right; exists q|by left|right; exists r];
          (split; [|done]); [by left|by right].
      * intros [?|(r & [->|Hr]%elem_of_cons & Hl)]; [by left; right|by left; left|].
        right. by exists r.
    + intros Hnd. by apply Hnodup, setAdd_NoDup.
    + intros l Hl. rewrite Hlookup.
      * apply lookup_insert_ne. apply Hl. by left.
      * intros r Hr. apply Hl. by right.
Qed.

Lemma indexUnit_total qs byBTL btls :
  (∀ q, q ∈ qs → q_btLevel q ∉ objectPrototypeKeys) →
  ∃ result, indexUnit qs byBTL btls = Returns result.
Proof.
  revert byBTL btls. induction qs as [|q qs IH]; intros byBTL btls Hqs; simpl; [eauto|].
  assert (∀ r, r ∈ qs → q_btLevel r ∉ objectPrototypeKeys) as Hrest
    by (intros r Hr; apply Hqs; by right).
  unfold getProp. destruct (byBTL !! q_btLevel q); [by apply IH|].
  rewrite bool_decide_false; [by apply IH|]. apply Hqs. by left.
Qed.

Lemma indexUnits_returns units bank index btls index' btls' :
  indexUnits units bank index btls = Returns (index', btls') →
  (∀ l, l ∈ btls' ↔ l ∈ btls ∨ ∃ q, q ∈ bank ∧ q_unit q ∈ units ∧ q_btLevel q = l)
  ∧ (NoDup btls → NoDup btls')
  ∧ (∀ u l, (∀ q, q ∈ bank → q_btLevel q ≠ l) →
            availableLength index u l = None → availableLength index' u l = None).
Proof.
  revert index btls. induction units as [|unit units IH]; intros index btls; simpl.
  - intros [= <- <-]. split_and!; [|done..].
    intros l. split; [auto|]. intros [?|(q & _ & Hq & _)]; [done|].
    by apply not_elem_of_nil in Hq.
  - destruct (indexUnit _ ∅ btls) as [[byBTL btls1]|e] eqn:Hunit; [|done].
    intros Hrest. apply indexUnit_returns in Hunit as (Helem1 & Hnodup1 & Hlookup1).
    destruct (IH _ _ Hrest) as (Helem & Hnodup & Hlookup). split_and!.
    + intros l. rewrite Helem, Helem1. split.
      * intros [[?|(q & [Hu Hq]%list_elem_of_filter & Hl)]|(q & Hq & Hu & Hl)];
          [by left|right; exists q|right; exists q]; (split_and!; [done| |done]).
        -- rewrite Hu. by left.
        -- by right.
      * intros [?|(q & Hq & [Hu|Hu]%elem_of_cons & Hl)]; [by left; left| |].
        -- left. right. exists q. by rewrite list_elem_of_filter.
        -- right. by exists q.
    + auto.
    + intros u l Hl Hnone. apply Hlookup; [done|]. unfold availableLength.
      rewrite lookup_insert. case_decide as Hu; [|done]. simpl.
      rewrite Hlookup1; [by rewrite lookup_empty|].
      intros q [_ Hq]%list_elem_of_filter. auto.
Qed.

(** What step 1 computes when it does not throw: the distinct levels of the
    questions of units 1 to 5, and no entry for a level no question has. *)
Lemma assessAvailable_returns bank index btls :
  assessAvailable bank = Returns (index, btls) →
  (∀ l, l ∈ btls ↔ ∃ q, q ∈ bank ∧ q_unit q ∈ [1; 2; 3; 4; 5] ∧ q_btLevel q = l)
  ∧ NoDup btls
  ∧ (∀ u l, (∀ q, q ∈ bank → q_btLevel q ≠ l) → availableLength index u l = None).
Proof.
  intros (Helem & Hnodup & Hlookup)%indexUnits_returns. split_and!.
  - intros l. rewrite Helem. split; [|auto]. intros [Hl|?]; [|done].
    by apply not_elem_of_nil in Hl.
  - apply Hnodup. constructor.
  - intros u l Hl. apply Hlookup; [done|]. unfold availableLength.
    by rewrite lookup_empty.
Qed.

Lemma indexUnits_total units bank index btls :
  (∀ q, q ∈ bank → q_btLevel q ∉ objectPrototypeKeys) →
  ∃ result, indexUnits units bank index btls = Returns result.
Proof.
  intros Hbank. revert index btls.
  induction units as [|unit units IH]; intros index btls; simpl; [eauto|].
  destruct (indexUnit_total (filter (λ q, q_unit q = unit) bank) ∅ btls)
    as [[byBTL btls1] ->]; [|apply IH].
  intros q [_ Hq]%list_elem_of_filter. auto.
Qed.

(** Step 1 completes unless a level label is a name objects inherit. *)
Lemma assessAvailable_total bank :
  (∀ q, q ∈ bank → q_btLevel q ∉ objectPrototypeKeys) →
  ∃ index btls, assessAvailable bank = Returns (index, btls).
Proof.
  intros Hbank. destruct (indexUnits_total [1; 2; 3; 4; 5] bank ∅ [] Hbank)
    as [[index btls] Hrun].
  by exists index, btls.
Qed.

(** ** Scheme resolution *)

Lemma btlRequirements_unsupported maxBTL btls :
  maxBTL ≠ 6 → maxBTL ≠ 4 → length btls ≠ 1%nat →
  btlRequirements maxBTL btls = Throws (UnsupportedCase maxBTL btls).
Proof.
  intros H6 H4 Hlen. unfold btlRequirements.
  rewrite !bool_decide_false by done. by destruct btls as [|? [|? ?]].
Qed.

(** C7 (amended): take a loaded bank whose maximum level is neither 6 nor 4
    and whose questions of units 1 to 5 do not carry exactly one distinct
    level.  Then [generateQuestions] never returns a selection, whatever
    the paper type.  If moreover the bank has at least six questions, step
    1 completes and some level parses as a positive integer, the greatest
    being a safe integer (below 2^53, so that the engine holds and prints
    that very integer), the call throws the "Unsupported case" error, whose
    message names the maximum level and the distinct levels observed, and
    changes nothing. *)
Theorem generateQuestions_unsupported paperType w bank :
  questionBank w = Some bank →
  maxBTLOf bank ≠ Some 6 →
  maxBTLOf bank ≠ Some 4 →
  (∀ index btls, assessAvailable bank = Returns (index, btls) → length btls ≠ 1%nat) →
  (∀ selected w', generateQuestions paperType w ≠ (Returns selected, w'))
  ∧ (∀ index btls m,
       (6 ≤ length bank)%nat →
       assessAvailable bank = Returns (index, btls) →
       maxBTLOf bank = Some m →
       isSafeInteger m →
       generateQuestions paperType w = (Throws (UnsupportedCase m btls), w)
       ∧ message (UnsupportedCase m btls)
         = "Unsupported case: Max BTL = " +:+ pretty m +:+ " with multiple BTLs ("
           +:+ joinComma btls
           +:+ "). Only Case i (max BTL = 6), Case ii (max BTL = 4), or Case iii (single BTL) are supported."
       ∧ NoDup btls
       ∧ (∀ l, l ∈ btls ↔ ∃ q, q ∈ bank ∧ q_unit q ∈ [1; 2; 3; 4; 5] ∧ q_btLevel q = l)).
Proof.
  intros Hw H6 H4 Hlevels. split.
  - intros selected w'
      (bank' & index & btls & first & rest & btlReqs & unitReqs & s & Hw' & _ & Hidx & Hlv
       & Hbtl & _)%generateQuestions_returns.
    rewrite Hw in Hw'. injection Hw' as <-.
    unfold maxBTLOf in H6, H4. rewrite Hlv in H6, H4.
    rewrite btlRequirements_unsupported in Hbtl; [done|congruence|congruence|by eapply Hlevels].
  - intros index btls m Hlen Hidx Hmax _.
    destruct (assessAvailable_returns _ _ _ Hidx) as (Helem & Hnodup & _).
    split_and!; [|done..].
    unfold generateQuestions, mbind, M_bind, bind, readBank, lift.
    rewrite Hw. rewrite bool_decide_false by lia. rewrite Hidx.
    unfold maxBTLOf in *. destruct (btLevelsOf bank) as [|first rest]; [done|].
    injection Hmax as Hmax. rewrite Hmax.
    rewrite btlRequirements_unsupported; [done|congruence|congruence|by eapply Hlevels].
Qed.

Lemma generateQuestions_unsupported_witness :
  (questionBank (sampleWorld (Some (levelBank ["2"; "5"; "5"; "5"; "5"; "5"; "5"])) 0)
   = Some (levelBank ["2"; "5"; "5"; "5"; "5"; "5"; "5"])
   ∧ maxBTLOf (levelBank ["2"; "5"; "5"; "5"; "5"; "5"; "5"]) = Some 5
   ∧ isSafeInteger 5
   ∧ (∃ index, assessAvailable (levelBank ["2"; "5"; "5"; "5"; "5"; "5"; "5"])
               = Returns (index, ["2"; "5"])))
  ∧ (∀ selected w',
       generateQuestions "mid1"
         (sampleWorld (Some (levelBank ["2"; "5"; "5"; "5"; "5"; "5"; "5"])) 0)
       ≠ (Returns selected, w'))
  ∧ generateQuestions "mid1"
      (sampleWorld (Some (levelBank ["2"; "5"; "5"; "5"; "5"; "5"; "5"])) 0)
    = (Throws (UnsupportedCase 5 ["2"; "5"]),
       sampleWorld (Some (levelBank ["2"; "5"; "5"; "5"; "5"; "5"; "5"])) 0).
Proof.
  assert (∃ index, assessAvailable (levelBank ["2"; "5"; "5"; "5"; "5"; "5"; "5"])
                   = Returns (index, ["2"; "5"])) as Hindex
    by (eexists; vm_compute; reflexivity).
  split; [split_and!; [reflexivity|vm_compute; reflexivity|unfold isSafeInteger; lia
                      |exact Hindex]|].
  destruct Hindex as [index Hindex].
  destruct (generateQuestions_unsupported "mid1"
              (sampleWorld (Some (levelBank ["2"; "5"; "5"; "5"; "5"; "5"; "5"])) 0)
              (levelBank ["2"; "5"; "5"; "5"; "5"; "5"; "5"]))
    as [Hnever Herror].
  - reflexivity.
  - vm_compute. intros [=].
  - vm_compute. intros [=].
  - intros index' btls. rewrite Hindex. intros [= _ <-]. intros [=].
  - split; [exact Hnever|].
    apply (Herror index ["2"; "5"] 5);
      [simpl; lia|exact Hindex|vm_compute; reflexivity|unfold isSafeInteger; lia].
Defined.

(** C7 as stated fails: two questions with levels "2" and "5" match no
    scheme, yet the error is the one about the size of the bank; and six
    questions with the levels "a" and "b" match no scheme, yet the error
    is that no valid level was found. *)
Lemma unmatched_levels_other_errors :
  generateQuestions "mid1" (sampleWorld (Some (levelBank ["2"; "5"])) 0)
  = (Throws InsufficientBank, sampleWorld (Some (levelBank ["2"; "5"])) 0)
  ∧ generateQuestions "mid1"
      (sampleWorld (Some (levelBank ["a"; "a"; "a"; "b"; "b"; "b"])) 0)
    = (Throws NoValidBTL,
       sampleWorld (Some (levelBank ["a"; "a"; "a"; "b"; "b"; "b"])) 0).
Proof. split; vm_compute; reflexivity. Qed.

(** ** Banks with a single level *)

Lemma mathMax_constant v first rest :
  Forall (λ x, x = v) (first :: rest) → mathMax first rest = v.
Proof.
  intros [-> Hrest]%Forall_cons. unfold mathMax.
  induction Hrest as [|x rest -> _ IH]; simpl; [done|].
  by rewrite Z.max_id.
Qed.

Lemma btLevelsOf_single level bank :
  (∀ q, q ∈ bank → q_btLevel q = level) →
  Forall (λ x, x = parseIntOr0 level) (btLevelsOf bank).
Proof.
  intros Hbank. apply Forall_forall. unfold btLevelsOf.
  intros x [_ (q & -> & Hq)%list_elem_of_fmap]%list_elem_of_filter.
  by rewrite (Hbank q Hq).
Qed.

(** The maximum level of a bank with one level is that level's value. *)
Lemma maxBTLOf_single level bank m :
  (∀ q, q ∈ bank → q_btLevel q = level) →
  maxBTLOf bank = Some m → m = parseIntOr0 level.
Proof.
  intros Hbank. pose proof (btLevelsOf_single level bank Hbank) as Hall.
  unfold maxBTLOf. destruct (btLevelsOf bank) as [|first rest]; [done|].
  intros [= <-]. by apply mathMax_constant.
Qed.

Lemma maxBTLOf_single_positive level bank :
  (∀ q, q ∈ bank → q_btLevel q = level) →
  bank ≠ [] → 0 < parseIntOr0 level →
  maxBTLOf bank = Some (parseIntOr0 level).
Proof.
  intros Hbank Hne Hpos. pose proof (btLevelsOf_single level bank Hbank) as Hall.
  unfold maxBTLOf. destruct (btLevelsOf bank) as [|first rest] eqn:Hlv.
  - destruct bank as [|q bank]; [done|]. exfalso.
    assert (parseIntOr0 (q_btLevel q) ∈ btLevelsOf (q :: bank)) as Hin.
    { unfold btLevelsOf. apply list_elem_of_filter. split.
      - rewrite (Hbank q); [done|by left].
      - rewrite fmap_cons. by left. }
    rewrite Hlv in Hin. by apply not_elem_of_nil in Hin.
  - f_equal. by apply mathMax_constant.
Qed.

Lemma availableCount_none index unitReqs s level :
  (∀ u, availableLength index u level = None) →
  countOf (btlCount s) level = 0%nat →
  availableCount index unitReqs s level = 0.
Proof.
  intros Hnone Hcount. unfold availableCount. rewrite Hcount.
  set (step := λ (sum : Z) (u : unitRequirement), _).
  assert (∀ sum, foldl step sum unitReqs = sum) as Hfold; [|apply Hfold].
  induction unitReqs as [|u unitReqs IH]; intros sum; simpl; [done|].
  rewrite IH. unfold step. rewrite Hnone. simpl. lia.
Qed.

(** With no question of level "2" in the bank, a scheme that starts with the
    level-"2" quota stops there. *)
Lemma selectQuestions_no_level_2 index unitReqs rest w bank :
  questionBank w = Some bank →
  (∀ u, availableLength index u "2" = None) →
  selectQuestions index
    ({| br_level := "2"; br_options := None; br_count := 2 |} :: rest) unitReqs w
  = (Throws (InsufficientBTL "2" 2 0), w).
Proof.
  intros Hw Hnone.
  unfold selectQuestions, mbind, M_bind, bind, readBank. rewrite Hw. simpl.
  unfold mbind, M_bind, bind, fillRequirement. simpl.
  rewrite availableCount_none; done.
Qed.

Lemma unitRequirements_valid paperType :
  paperType ∈ ["mid1"; "mid2"; "special"] →
  ∃ unitReqs, unitRequirements paperType = Returns unitReqs.
Proof.
  intros Hin. repeat (apply elem_of_cons in Hin as [->|Hin]; [by eexists|]).
  by apply not_elem_of_nil in Hin.
Qed.

Lemma btlRequirements_schemeC maxBTL btls level :
  btlRequirements maxBTL btls = Returns (schemeC level) → maxBTL ≠ 6 ∧ maxBTL ≠ 4.
Proof.
  unfold btlRequirements. repeat (case_bool_decide; [discriminate|]). done.
Qed.

(** A filled scheme that starts with the level-"2" quota holds a question
    of level "2". *)
Lemma fills_level_2 rest selected :
  fills ({| br_level := "2"; br_options := None; br_count := 2 |} :: rest) selected →
  ∃ q, q ∈ selected ∧ q_btLevel q = "2".
Proof.
  intros (group & others & -> & Hlen & Hall & _)%fills_cons_inv.
  simpl in Hlen. destruct group as [|q group]; [done|].
  apply Forall_cons in Hall as [Hq%meets_fixed _]; [|done].
  exists q. split; [|done]. apply elem_of_app. left. by left.
Qed.

(** C10 (amended): take a loaded bank in which every question has the
    level "6" (likewise "4").  If the bank is not empty its maximum level
    is 6 (4), for which scheme resolution yields Scheme A (Scheme B)
    whatever the set of levels, so never Scheme C; [generateQuestions]
    never returns a selection; and when the bank has at least six
    questions and the paper type is valid, it throws the level-"2" quota
    error (need 2, found 0).  Scheme C is resolved only for a maximum
    level other than 6 and 4, so for a bank with one level only when that
    level's value is neither 6 nor 4. *)
Theorem generateQuestions_single_level_6_or_4 paperType w bank level :
  questionBank w = Some bank →
  (∀ q, q ∈ bank → q_btLevel q = level) →
  level = "6" ∨ level = "4" →
  (bank ≠ [] →
     (level = "6" →
        maxBTLOf bank = Some 6 ∧ ∀ btls, btlRequirements 6 btls = Returns schemeA)
     ∧ (level = "4" →
        maxBTLOf bank = Some 4 ∧ ∀ btls, btlRequirements 4 btls = Returns schemeB))
  ∧ (∀ selected w', generateQuestions paperType w ≠ (Returns selected, w'))
  ∧ ((6 ≤ length bank)%nat →
     paperType ∈ ["mid1"; "mid2"; "special"] →
     generateQuestions paperType w = (Throws (InsufficientBTL "2" 2 0), w))
  ∧ (∀ bank' level' m btls level'',
       (∀ q, q ∈ bank' → q_btLevel q = level') →
       maxBTLOf bank' = Some m →
       btlRequirements m btls = Returns (schemeC level'') →
       parseIntOr0 level' ≠ 6 ∧ parseIntOr0 level' ≠ 4).
Proof.
  intros Hw Hbank Hlevel.
  assert (0 < parseIntOr0 level) as Hpos by (by destruct Hlevel as [-> | ->]).
  assert (∀ btls, btlRequirements (parseIntOr0 level) btls
                  = Returns (if bool_decide (level = "6") then schemeA else schemeB))
    as Hscheme by (by destruct Hlevel as [-> | ->]).
  assert (level ≠ "2") as Hnot2 by (by destruct Hlevel as [-> | ->]).
  split_and!.
  - intros Hne.
    pose proof (maxBTLOf_single_positive level bank Hbank Hne Hpos) as Hmax.
    split; intros ->; done.
  - intros selected w'
      (bank' & index & btls & first & rest & btlReqs & unitReqs & s & Hw' & _ & _ & Hlv
       & Hbtl & _ & [Hsel _ _ _ _ _] & -> & Hfills & _)%generateQuestions_returns.
    rewrite Hw in Hw'. injection Hw' as <-.
    assert (maxBTLOf bank = Some (mathMax first rest)) as Hmax
      by (unfold maxBTLOf; by rewrite Hlv).
    apply (maxBTLOf_single level) in Hmax; [|done].
    rewrite Hmax, Hscheme in Hbtl. injection Hbtl as <-.
    assert (∃ q, q ∈ selectedQuestions s ∧ q_btLevel q = "2") as (q & Hq & Hq2).
    { case_bool_decide; by eapply fills_level_2. }
    apply Hnot2. rewrite <- Hq2. symmetry. auto.
  - intros Hlen Hpaper.
    destruct (assessAvailable_total bank) as (index & btls & Hidx).
    { intros q Hq. rewrite (Hbank q Hq).
      apply (bool_decide_unpack _). by destruct Hlevel as [-> | ->]. }
    destruct (assessAvailable_returns _ _ _ Hidx) as (_ & _ & Hnone).
    destruct (unitRequirements_valid paperType Hpaper) as [unitReqs Hunit].
    assert (bank ≠ []) as Hne by (intros ->; simpl in Hlen; lia).
    pose proof (maxBTLOf_single_positive level bank Hbank Hne Hpos) as Hmax.
    unfold generateQuestions, mbind, M_bind, bind, readBank, lift.
    rewrite Hw. rewrite bool_decide_false by lia. rewrite Hidx.
    unfold maxBTLOf in Hmax. destruct (btLevelsOf bank) as [|first rest]; [done|].
    injection Hmax as ->. rewrite Hscheme, Hunit.
    case_bool_decide; unfold schemeA, schemeB;
      (erewrite selectQuestions_no_level_2; [done|done|]);
      intros u; apply Hnone; intros q Hq; by rewrite (Hbank q Hq).
  - intros bank' level' m btls level'' Hbank' Hmax [H6 H4]%btlRequirements_schemeC.
    apply (maxBTLOf_single level') in Hmax; [|done]. by subst m.
Qed.

Lemma generateQuestions_single_level_6_or_4_witness :
  (questionBank (sampleWorld (Some (levelBank (replicate 6 "6"))) 0)
   = Some (levelBank (replicate 6 "6"))
   ∧ (∀ q, q ∈ levelBank (replicate 6 "6") → q_btLevel q = "6")
   ∧ ("6" = "6" ∨ "6" = "4"))
  ∧ generateQuestions "mid1" (sampleWorld (Some (levelBank (replicate 6 "6"))) 0)
    = (Throws (InsufficientBTL "2" 2 0),
       sampleWorld (Some (levelBank (replicate 6 "6"))) 0).
Proof.
  assert (∀ q, q ∈ levelBank (replicate 6 "6") → q_btLevel q = "6") as Hall.
  { intros q Hq. vm_compute in Hq.
    repeat (apply elem_of_cons in Hq as [->|Hq]; [reflexivity|]).
    by apply not_elem_of_nil in Hq. }
  split; [split_and!; [reflexivity|exact Hall|left; reflexivity]|].
  destruct (generateQuestions_single_level_6_or_4 "mid1"
              (sampleWorld (Some (levelBank (replicate 6 "6"))) 0)
              (levelBank (replicate 6 "6")) "6" eq_refl Hall (or_introl eq_refl))
    as (_ & _ & Hquota & _).
  apply Hquota; [simpl; lia|elem_of_explicit].
Defined.

(** C10 as stated fails: a bank whose questions all have level "6" does not
    always fail on the level-"2" quota.  With six questions and the token
    "final" the error is the invalid paper type; with three questions it
    is the size of the bank. *)
Lemma single_level_6_other_errors :
  generateQuestions "final" (sampleWorld (Some (levelBank (replicate 6 "6"))) 0)
  = (Throws InvalidPaperType, sampleWorld (Some (levelBank (replicate 6 "6"))) 0)
  ∧ generateQuestions "mid1" (sampleWorld (Some (levelBank (replicate 3 "6"))) 0)
    = (Throws InsufficientBank, sampleWorld (Some (levelBank (replicate 3 "6"))) 0).
Proof. split; vm_compute; reflexivity. Qed.

(** * Further properties of the code

    Properties of the functions around the selection: the share-link
    rewriting, the normalisation of rows, the three handlers and the store
    they share, the errors of a generation, the availability index and the
    reading of numeric cells.  Limits of the engine (stack depth, the
    number of arguments [Math.max(...)] accepts) are outside the
    embedding. *)

(** ** Drive share links *)

#[local] Arguments String.append : simpl nomatch.


Lemma hasSlash_app s1 s2 : hasSlash (s1 +:+ s2) = hasSlash s1 || hasSlash s2.
Proof. induction s1 as [|c s1 IH]; simpl; [done|]. by rewrite IH, orb_assoc. Qed.

Lemma rev_app_rev_app s1 s2 s3 :
  String.rev_app (String.rev_app s1 s2) s3 = String.rev_app s2 (s1 +:+ s3).
Proof.
  revert s2. induction s1 as [|c s1 IH]; intros s2; simpl; [done|]. by rewrite IH.
Qed.

Lemma rev_app_nonempty s1 s2 : s2 ≠ "" → String.rev_app s1 s2 ≠ "".
Proof.
  revert s2. induction s1 as [|c s1 IH]; intros s2 Hs2; simpl; [done|]. by apply IH.
Qed.

Lemma stripPrefix_app p s : stripPrefix p (p +:+ s) = Some s.
Proof.
  induction p as [|c p IH]; simpl; [by destruct s|]. by rewrite bool_decide_true.
Qed.

Lemma stripPrefix_Some p s rest : stripPrefix p s = Some rest → s = p +:+ rest.
Proof.
  revert s. induction p as [|c p IH]; intros s; simpl.
  - destruct s; by intros [= ->].
  - destruct s as [|d s]; [done|]. case_bool_decide; [|done].
    intros ->%IH. by subst.
Qed.

#[local] Arguments stripPrefix : simpl never.

(** What [captureId] returns is the run of non-slash characters it read,
    appended to what it held, and [/view] follows that run. *)
Lemma captureId_Some s acc fileId :
  captureId s acc = Some fileId →
  ∃ run after, s = run +:+ "/view" +:+ after
               ∧ hasSlash run = false
               ∧ fileId = String.rev_app acc run
               ∧ fileId ≠ "".
Proof.
  revert acc. induction s as [|c s IH]; intros acc; simpl; [done|].
  case_bool_decide as Hc.
  - destruct acc as [|a acc]; [done|].
    destruct (stripPrefix "view" s) as [after|] eqn:Hview; [|done].
    intros [= <-]. apply stripPrefix_Some in Hview as ->. subst c.
    exists "", after. split_and!; [done..|]. unfold String.rev. simpl. by apply rev_app_nonempty.
  - intros (run & after & -> & Hrun & -> & Hne)%IH.
    exists (String c run), after. simpl. split_and!; [done| |done..].
    by rewrite bool_decide_false.
Qed.

Lemma captureId_run run after acc :
  hasSlash run = false →
  acc ≠ "" ∨ run ≠ "" →
  captureId (run +:+ "/view" +:+ after) acc = Some (String.rev_app acc run).
Proof.
  revert acc. induction run as [|c run IH]; intros acc; simpl.
  - intros _ [Hacc|?]; [|done]. destruct acc as [|a acc]; [done|]. done.
  - intros [Hc Hrun]%orb_false_elim _. rewrite Hc.
    rewrite IH; [done..|]. by left.
Qed.

Lemma driveMatchAt_share_link fileId after :
  fileId ≠ "" → hasSlash fileId = false →
  driveMatchAt (driveFilePrefix +:+ fileId +:+ "/view" +:+ after) = Some fileId.
Proof.
  intros Hne Hslash. unfold driveMatchAt. rewrite stripPrefix_app.
  change (captureId (fileId +:+ "/view" +:+ after) "" = Some fileId).
  rewrite captureId_run; [done..|]. by right.
Qed.

Lemma driveMatch_unfold url :
  driveMatch url =
  match driveMatchAt url with
  | Some fileId => Some fileId
  | None => match url with
            | String _ url' => driveMatch url'
            | EmptyString => None
            end
  end.
Proof. by destruct url. Qed.

(** Where [driveMatch] finds a file id, the url holds a share link with it. *)
Lemma driveMatch_Some url fileId :
  driveMatch url = Some fileId →
  ∃ before after,
    url = before +:+ driveFilePrefix +:+ fileId +:+ "/view" +:+ after
    ∧ fileId ≠ "" ∧ hasSlash fileId = false.
Proof.
  induction url as [|c url IH]; rewrite driveMatch_unfold.
  - done.
  - destruct (driveMatchAt (String c url)) as [found|] eqn:Hat.
    + intros [= ->]. unfold driveMatchAt in Hat.
      destruct (stripPrefix driveFilePrefix (String c url)) as [rest|] eqn:Hpre; [|done].
      apply stripPrefix_Some in Hpre. simpl in Hat.
      apply captureId_Some in Hat as (run & after & -> & Hrun & -> & Hne).
      exists "", after. simpl in *. by rewrite Hpre.
    + intros (before & after & -> & Hne & Hslash)%IH.
      by exists (String c before), after.
Qed.

(** A url that holds a share link is matched somewhere. *)
Lemma driveMatch_holds url : holdsShareLink url → is_Some (driveMatch url).
Proof.
  intros (before & fileId & after & -> & Hne & Hslash).
  induction before as [|c before IH]; rewrite driveMatch_unfold.
  - change ("" +:+ driveFilePrefix +:+ fileId +:+ "/view" +:+ after)
      with (driveFilePrefix +:+ fileId +:+ "/view" +:+ after).
    by rewrite driveMatchAt_share_link.
  - destruct (driveMatchAt _); [done|]. exact IH.
Qed.

Lemma driveMatch_no_slash s : hasSlash s = false → driveMatch s = None.
Proof.
  induction s as [|c s IH]; [done|]. intros Hs. rewrite driveMatch_unfold.
  assert (driveMatchAt (String c s) = None) as ->.
  { unfold driveMatchAt.
    destruct (stripPrefix driveFilePrefix (String c s)) as [rest|] eqn:Hpre; [|done].
    apply stripPrefix_Some in Hpre. rewrite Hpre, hasSlash_app in Hs. done. }
  apply IH. simpl in Hs. by apply orb_false_elim in Hs as [_ ?].
Qed.

Lemma driveMatch_skip c s :
  driveMatchAt (String c s) = None → driveMatch (String c s) = driveMatch s.
Proof. intros Hat. by rewrite driveMatch_unfold, Hat. Qed.

(** The direct-content form holds no share link. *)
Lemma driveMatch_direct fileId :
  hasSlash fileId = false → driveMatch (directPrefix +:+ fileId) = None.
Proof.
  intros Hslash. unfold directPrefix. simpl.
  repeat (rewrite driveMatch_skip by reflexivity).
  by apply driveMatch_no_slash.
Qed.

(** X1: a url that starts with a Drive share link, whatever follows
    [/view], is rewritten to the direct-content form of its file id. *)
Theorem getDirectImageURL_share_link fileId after :
  fileId ≠ "" →
  hasSlash fileId = false →
  getDirectImageURL (driveFilePrefix +:+ fileId +:+ "/view" +:+ after)
  = directPrefix +:+ fileId.
Proof.
  intros Hne Hslash. unfold getDirectImageURL.
  by rewrite driveMatch_unfold, driveMatchAt_share_link.
Qed.

Lemma getDirectImageURL_share_link_witness :
  ("1AbC_9" ≠ "" ∧ hasSlash "1AbC_9" = false)
  ∧ getDirectImageURL (driveFilePrefix +:+ "1AbC_9" +:+ "/view" +:+ "?usp=sharing")
    = directPrefix +:+ "1AbC_9".
Proof.
  split; [split; [intros [=]|reflexivity]|].
  apply (getDirectImageURL_share_link "1AbC_9" "?usp=sharing"); [intros [=]|reflexivity].
Defined.

(** X2: [getDirectImageURL] leaves a url as it is exactly when the url
    holds no share link; when it holds one, the result is the
    direct-content form of the file id of a share link of the url, and
    differs from the url. *)
Theorem getDirectImageURL_characterised url :
  (getDirectImageURL url = url ↔ ¬ holdsShareLink url)
  ∧ (holdsShareLink url →
     ∃ before fileId after,
       url = before +:+ driveFilePrefix +:+ fileId +:+ "/view" +:+ after
       ∧ fileId ≠ "" ∧ hasSlash fileId = false
       ∧ getDirectImageURL url = directPrefix +:+ fileId).
Proof.
  assert (holdsShareLink url →
          ∃ before fileId after,
            url = before +:+ driveFilePrefix +:+ fileId +:+ "/view" +:+ after
            ∧ fileId ≠ "" ∧ hasSlash fileId = false
            ∧ getDirectImageURL url = directPrefix +:+ fileId) as Hholds.
  { intros [fileId Hmatch]%driveMatch_holds.
    destruct (driveMatch_Some _ _ Hmatch) as (before & after & Hurl & Hne & Hslash).
    exists before, fileId, after. unfold getDirectImageURL. by rewrite Hmatch. }
  split; [|done]. split.
  - intros Hsame Hlink.
    destruct (Hholds Hlink) as (before & fileId & after & _ & _ & Hslash & Hdirect).
    apply driveMatch_holds in Hlink as [found Hfound].
    rewrite <- Hsame, Hdirect, driveMatch_direct in Hfound; done.
  - intros Hnone. unfold getDirectImageURL.
    destruct (driveMatch url) as [fileId|] eqn:Hmatch; [|done].
    destruct Hnone. apply driveMatch_Some in Hmatch as (before & after & ? & ? & ?).
    by exists before, fileId, after.
Qed.

Lemma getDirectImageURL_twice url :
  getDirectImageURL (getDirectImageURL url) = getDirectImageURL url.
Proof.
  unfold getDirectImageURL at 2 3.
  destruct (driveMatch url) as [fileId|] eqn:Hmatch.
  - apply driveMatch_Some in Hmatch as (_ & _ & _ & _ & Hslash).
    unfold getDirectImageURL. fold directPrefix. by rewrite driveMatch_direct.
  - unfold getDirectImageURL. by rewrite Hmatch.
Qed.

(** X3: resolving a url twice is resolving it once. *)
Theorem getDirectImageURL_idempotent url :
  getDirectImageURL (getDirectImageURL url) = getDirectImageURL url.
Proof. apply getDirectImageURL_twice. Qed.

Lemma getDirectImageURL_nonempty url : url ≠ "" → getDirectImageURL url ≠ "".
Proof.
  intros Hurl. unfold getDirectImageURL. by destruct (driveMatch url).
Qed.

(** X4: the image proxy answers a url and its resolved form alike: it
    fetches the resolved form in both cases. *)
Theorem imageProxyHandler_resolved url fetch :
  url ≠ "" →
  imageProxyHandler (Some url) fetch
  = imageProxyHandler (Some (getDirectImageURL url)) fetch.
Proof.
  intros Hurl. pose proof (getDirectImageURL_nonempty url Hurl) as Hdirect.
  unfold imageProxyHandler.
  rewrite !bool_decide_false by done. by rewrite getDirectImageURL_twice.
Qed.

Lemma imageProxyHandler_resolved_witness :
  driveFilePrefix +:+ "1AbC_9/view" ≠ ""
  ∧ imageProxyHandler (Some (driveFilePrefix +:+ "1AbC_9/view")) (λ _, None)
    = imageProxyHandler (Some (getDirectImageURL (driveFilePrefix +:+ "1AbC_9/view")))
        (λ _, None).
Proof.
  split; [intros [=]|].
  apply (imageProxyHandler_resolved (driveFilePrefix +:+ "1AbC_9/view") (λ _, None)).
  intros [=].
Defined.

(** ** The bank [processExcelData] builds *)

Lemma mapRows_shape data index qs :
  mapRows data index = Returns qs →
  StronglySorted (λ a b, (q_id a < q_id b)%nat) qs
  ∧ Forall (λ q, (index < q_id q ≤ index + length data)%nat) qs
  ∧ length qs = length data.
Proof.
  revert index qs. induction data as [|r data IH]; intros index qs; simpl.
  - intros [= <-]. split_and!; constructor.
  - destruct (normalizeRow r index) as [q|e] eqn:Hrow; [|done].
    destruct (mapRows data (S index)) as [qs'|e] eqn:Hrest; [|done].
    intros [= <-]. apply normalizeRow_returns in Hrow as (Hid & _ & _).
    destruct (IH _ _ Hrest) as (Hsorted & Hbounds & Hlen). split_and!.
    + constructor; [done|]. eapply Forall_impl; [done|]. simpl. lia.
    + constructor; [lia|]. eapply Forall_impl; [done|]. simpl. lia.
    + simpl. by rewrite Hlen.
Qed.

Lemma mapRows_lookup data index qs i r :
  mapRows data index = Returns qs →
  data !! i = Some r →
  ∃ q, normalizeRow r (index + i) = Returns q ∧ q ∈ qs.
Proof.
  revert index qs i. induction data as [|r0 data IH]; intros index qs i; simpl; [done|].
  destruct (normalizeRow r0 index) as [q0|e] eqn:Hrow; [|done].
  destruct (mapRows data (S index)) as [qs'|e] eqn:Hrest; [|done].
  intros [= <-]. destruct i as [|i]; simpl.
  - intros [= <-]. exists q0. rewrite Nat.add_0_r. split; [done|by left].
  - intros Hr. destruct (IH _ _ _ Hrest Hr) as (q & Hq & Hin).
    exists q. rewrite Nat.add_succ_r. split; [done|by right].
Qed.

Lemma StronglySorted_filter_ids (P : question → Prop) `{!∀ q, Decision (P q)} qs :
  StronglySorted (λ a b, (q_id a < q_id b)%nat) qs →
  StronglySorted (λ a b, (q_id a < q_id b)%nat) (filter P qs).
Proof.
  induction 1 as [|q qs Hsorted IH Hall]; [constructor|].
  rewrite filter_cons. case_decide; [|done]. constructor; [done|].
  apply Forall_forall. intros b [_ Hb]%list_elem_of_filter.
  by eapply Forall_forall in Hall.
Qed.

Lemma StronglySorted_ids_NoDup qs :
  StronglySorted (λ a b, (q_id a < q_id b)%nat) qs → NoDup (q_id <$> qs).
Proof.
  induction 1 as [|q qs Hsorted IH Hall]; csimpl; constructor; [|done].
  intros (b & Hid & Hb)%list_elem_of_fmap.
  eapply Forall_forall in Hall; [|done]. lia.
Qed.

(** Shape of the bank, shared by the statements below. *)
Lemma processExcelData_shape data bank :
  processExcelData data = Returns bank →
  Forall keepQuestion bank
  ∧ StronglySorted (λ a b, (q_id a < q_id b)%nat) bank
  ∧ NoDup (q_id <$> bank)
  ∧ (∀ q, q ∈ bank → (1 ≤ q_id q ≤ length data)%nat)
  ∧ (length bank ≤ length data)%nat.
Proof.
  unfold processExcelData. destruct (mapRows data 0) as [qs|e] eqn:Hmap; [|done].
  intros [= <-]. destruct (mapRows_shape _ _ _ Hmap) as (Hsorted & Hbounds & Hlen).
  assert (StronglySorted (λ a b, (q_id a < q_id b)%nat) (filter keepQuestion qs))
    as Hsorted' by by apply StronglySorted_filter_ids.
  split_and!; [|done|by apply StronglySorted_ids_NoDup| |].
  - apply Forall_forall. by intros q [? _]%list_elem_of_filter.
  - intros q [_ Hq]%list_elem_of_filter. eapply Forall_forall in Hbounds; [|done]. lia.
  - rewrite <- Hlen. apply length_filter.
Qed.

(** X5: the records of a bank carry distinct identifiers in ascending
    order, each the 1-based position of its row, and the bank is no longer
    than the sheet. *)
Theorem processExcelData_identifiers data bank :
  processExcelData data = Returns bank →
  StronglySorted (λ a b, (q_id a < q_id b)%nat) bank
  ∧ NoDup (q_id <$> bank)
  ∧ (∀ q, q ∈ bank → (1 ≤ q_id q ≤ length data)%nat)
  ∧ (length bank ≤ length data)%nat.
Proof. intros (_ & ? & ? & ? & ?)%processExcelData_shape. done. Qed.

(** X6: take a row whose unit and level cells, if numeric, hold safe
    integers (so that the text the engine parses, or keeps as label, is
    their plain decimal form).  The row is kept exactly when its parsed
    unit is within 1..5 and its level cell, trimmed and stripped of a
    leading L, is neither empty nor "0"; its record then carries the row's
    position, unit and level. *)
Theorem processExcelData_kept_rows data bank i r :
  processExcelData data = Returns bank →
  data !! i = Some r →
  safeCell (row_Unit r) →
  safeCell (row_BTLevel r) →
  ((∃ q, q ∈ bank ∧ q_id q = S i)
   ↔ 1 ≤ unitOf r ≤ 5 ∧ btLevelOf r ≠ "" ∧ btLevelOf r ≠ "0")
  ∧ (∀ q, q ∈ bank → q_id q = S i →
          q_unit q = unitOf r ∧ q_btLevel q = btLevelOf r
          ∧ q_question q = js_or (row_Question r) (JString "")).
Proof.
  unfold processExcelData. destruct (mapRows data 0) as [qs|e] eqn:Hmap; [|done].
  intros [= <-] Hr _ _.
  destruct (mapRows_lookup _ _ _ _ _ Hmap Hr) as (q0 & Hrow0 & Hq0). simpl in Hrow0.
  pose proof Hrow0 as (Hid0 & Hunit0 & Hbtl0)%normalizeRow_returns.
  assert (∀ q, q ∈ qs → q_id q = S i → q = q0) as Hsame.
  { intros q Hq Hid. destruct (mapRows_elem _ _ _ _ Hmap Hq) as (j & r' & Hj & Hrow).
    pose proof Hrow as (Hid' & _)%normalizeRow_returns. simpl in Hrow.
    assert (j = i) as -> by lia. rewrite Hr in Hj. injection Hj as <-. congruence. }
  split.
  - split.
    + intros (q & [(Hlo & Hhi & Hlevel) Hq]%list_elem_of_filter & Hid).
      rewrite (Hsame q Hq Hid) in Hlo, Hhi, Hlevel.
      rewrite Hunit0 in Hlo, Hhi. rewrite Hbtl0 in Hlevel.
      case_bool_decide; [done|]. done.
    + intros (Hunit & Hne & Hnz). exists q0. split; [|lia].
      apply list_elem_of_filter. split; [|done].
      unfold keepQuestion. rewrite Hunit0, Hbtl0. rewrite bool_decide_false by done.
      split_and!; [lia..|done].
  - intros q [(Hlo & Hhi & Hlevel) Hq]%list_elem_of_filter Hid.
    rewrite (Hsame q Hq Hid) in *. rewrite Hbtl0 in Hlevel |- *.
    split_and!; [done| |].
    + by case_bool_decide.
    + unfold normalizeRow in Hrow0.
      destruct (if truthy (row_ImageUrl r) then _ else _); [|done].
      by injection Hrow0 as <-.
Qed.

Lemma processExcelData_kept_rows_witness :
  (processExcelData shortSheet = Returns [sampleQuestion 1 1 "2"]
   ∧ shortSheet !! 0%nat = Some (sampleRow (JNumber 1) (JString "L2"))
   ∧ safeCell (row_Unit (sampleRow (JNumber 1) (JString "L2")))
   ∧ safeCell (row_BTLevel (sampleRow (JNumber 1) (JString "L2"))))
  ∧ ((∃ q, q ∈ [sampleQuestion 1 1 "2"] ∧ q_id q = 1%nat)
     ↔ 1 ≤ unitOf (sampleRow (JNumber 1) (JString "L2")) ≤ 5
       ∧ btLevelOf (sampleRow (JNumber 1) (JString "L2")) ≠ ""
       ∧ btLevelOf (sampleRow (JNumber 1) (JString "L2")) ≠ "0").
Proof.
  split; [split_and!; [vm_compute; reflexivity|reflexivity
                      |simpl; unfold isSafeInteger; lia|exact I]|].
  apply (processExcelData_kept_rows shortSheet [sampleQuestion 1 1 "2"] 0%nat
           (sampleRow (JNumber 1) (JString "L2"))).
  - vm_compute. reflexivity.
  - reflexivity.
  - simpl. unfold isSafeInteger. lia.
  - exact I.
Defined.

Lemma processExcelData_identifiers_witness :
  processExcelData shortSheet = Returns [sampleQuestion 1 1 "2"]
  ∧ StronglySorted (λ a b, (q_id a < q_id b)%nat) [sampleQuestion 1 1 "2"]
  ∧ NoDup (q_id <$> [sampleQuestion 1 1 "2"])
  ∧ (∀ q, q ∈ [sampleQuestion 1 1 "2"] → (1 ≤ q_id q ≤ length shortSheet)%nat)
  ∧ (length [sampleQuestion 1 1 "2"] ≤ length shortSheet)%nat.
Proof.
  split; [vm_compute; reflexivity|].
  apply (processExcelData_identifiers shortSheet [sampleQuestion 1 1 "2"]).
  vm_compute. reflexivity.
Defined.

Lemma normalizeRow_usable r index :
  imageCellUsable r → ∃ q, normalizeRow r index = Returns q.
Proof.
  unfold normalizeRow. intros [-> |[url Hurl]]; [by eexists|].
  rewrite Hurl. simpl. destruct (negb _); by eexists.
Qed.

Lemma normalizeRow_unusable r index :
  ¬ imageCellUsable r →
  normalizeRow r index = Throws (TypeError "url.match is not a function").
Proof.
  unfold imageCellUsable, normalizeRow. intros Hbad.
  destruct (truthy (row_ImageUrl r)) eqn:Htruthy; [|by destruct Hbad; left].
  destruct (row_ImageUrl r) as [|url| |] eqn:Hcell; try done.
  destruct Hbad. right. by exists url.
Qed.

Lemma imageCellUsable_or_not r : imageCellUsable r ∨ ¬ imageCellUsable r.
Proof.
  unfold imageCellUsable. destruct (row_ImageUrl r) as [|url|n|b].
  - left. by left.
  - left. right. by exists url.
  - destruct (truthy (JNumber n)) eqn:Hn; [right|left; by left].
    intros [?|[url ?]]; done.
  - destruct (truthy (JBool b)) eqn:Hb; [right|left; by left].
    intros [?|[url ?]]; done.
Qed.

Lemma mapRows_usable data index :
  (Forall imageCellUsable data → ∃ qs, mapRows data index = Returns qs)
  ∧ ((∃ qs, mapRows data index = Returns qs) → Forall imageCellUsable data)
  ∧ (¬ Forall imageCellUsable data →
     mapRows data index = Throws (TypeError "url.match is not a function")).
Proof.
  revert index. induction data as [|r data IH]; intros index; simpl.
  - split_and!; [by eexists|constructor|]. intros Hbad. destruct Hbad. constructor.
  - destruct (imageCellUsable_or_not r) as [Hr|Hr].
    + destruct (normalizeRow_usable r index Hr) as [q ->].
      destruct (IH (S index)) as (Hok & Hback & Hbad). split_and!.
      * intros [_ Hrest]%Forall_cons. destruct (Hok Hrest) as [qs ->]. by eexists.
      * intros [qs Hqs]. constructor; [done|]. apply Hback.
        destruct (mapRows data (S index)); [by eexists|done].
      * intros Hnot. rewrite Hbad; [done|]. intros Hrest. apply Hnot. by constructor.
    + rewrite (normalizeRow_unusable r index Hr). split_and!; [|by intros [? ?]|done].
      by intros [? _]%Forall_cons.
Qed.

(** X7: [processExcelData] returns a bank exactly when every [Image Url]
    cell is a string or falsy; one truthy cell of another type (a number,
    [true]) makes it throw the [TypeError] of [url.match]. *)
Theorem processExcelData_returns_iff data :
  ((∃ bank, processExcelData data = Returns bank) ↔ Forall imageCellUsable data)
  ∧ (¬ Forall imageCellUsable data →
     processExcelData data = Throws (TypeError "url.match is not a function")).
Proof.
  unfold processExcelData. destruct (mapRows_usable data 0%nat) as (Hok & Hback & Hbad).
  split; [split|].
  - intros [bank Hbank]. apply Hback. destruct (mapRows data 0); [by eexists|done].
  - intros [qs ->]%Hok. by eexists.
  - intros Hnot. by rewrite (Hbad Hnot).
Qed.

Lemma normalizeRow_imageUrl r index q :
  normalizeRow r index = Returns q →
  getDirectImageURL (q_imageUrl q) = q_imageUrl q.
Proof.
  unfold normalizeRow. destruct (truthy (row_ImageUrl r)).
  - destruct (row_ImageUrl r) as [|url| |]; try done. simpl.
    intros [= <-]. simpl. apply getDirectImageURL_twice.
  - intros [= <-]. done.
Qed.

Lemma processExcelData_wellFormed data bank :
  processExcelData data = Returns bank → wellFormedBank bank.
Proof.
  intros Hbank. destruct (processExcelData_shape _ _ Hbank) as (Hkeep & Hsorted & _).
  split_and!; [done..|]. apply Forall_forall. intros q Hq.
  unfold processExcelData in Hbank.
  destruct (mapRows data 0) as [qs|e] eqn:Hmap; [|done]. injection Hbank as <-.
  apply list_elem_of_filter in Hq as [_ Hq].
  destruct (mapRows_elem _ _ _ _ Hmap Hq) as (i & r & _ & Hrow).
  by eapply normalizeRow_imageUrl.
Qed.

(** X8: the image reference stored in a bank record is already resolved:
    it holds no share link, so the image proxy fetches it as it is. *)
Theorem processExcelData_imageUrl_resolved data bank q :
  processExcelData data = Returns bank →
  q ∈ bank →
  getDirectImageURL (q_imageUrl q) = q_imageUrl q
  ∧ ¬ holdsShareLink (q_imageUrl q).
Proof.
  intros (_ & _ & Hurls)%processExcelData_wellFormed Hq.
  eapply Forall_forall in Hurls; [|done]. split; [done|].
  intros [fileId Hmatch]%driveMatch_holds.
  pose proof (driveMatch_Some _ _ Hmatch) as (_ & _ & _ & _ & Hslash).
  unfold getDirectImageURL in Hurls. rewrite Hmatch in Hurls.
  rewrite <- Hurls in Hmatch. fold directPrefix in Hmatch.
  by rewrite driveMatch_direct in Hmatch.
Qed.

Lemma processExcelData_imageUrl_resolved_witness :
  (processExcelData shortSheet = Returns [sampleQuestion 1 1 "2"]
   ∧ sampleQuestion 1 1 "2" ∈ [sampleQuestion 1 1 "2"])
  ∧ getDirectImageURL (q_imageUrl (sampleQuestion 1 1 "2"))
    = q_imageUrl (sampleQuestion 1 1 "2")
  ∧ ¬ holdsShareLink (q_imageUrl (sampleQuestion 1 1 "2")).
Proof.
  split; [split; [vm_compute; reflexivity|apply list_elem_of_here]|].
  apply (processExcelData_imageUrl_resolved shortSheet [sampleQuestion 1 1 "2"]
           (sampleQuestion 1 1 "2")).
  - vm_compute. reflexivity.
  - apply list_elem_of_here.
Defined.

(** ** The handlers and the store *)

Lemma uploadHandler_bank file w :
  questionBank (uploadHandler file w).2 = questionBank w
  ∨ ∃ f data bank, file = Some f ∧ up_rows f = Returns data
                   ∧ processExcelData data = Returns bank
                   ∧ questionBank (uploadHandler file w).2 = Some bank.
Proof.
  unfold uploadHandler. destruct file as [f|]; [|by left].
  destruct (up_rows f) as [data|e] eqn:Hrows; [|by left].
  destruct (processExcelData data) as [bank|e] eqn:Hbank; [|by left].
  right. exists f, data, bank. by destruct (up_unlinkOk f).
Qed.

Lemma generateHandler_bank paperType w :
  questionBank (generateHandler paperType w).2 = questionBank w.
Proof.
  unfold generateHandler. destruct (questionBank w) eqn:Hw; [|done].
  pose proof (stable_generateQuestions paperType w) as Hstable.
  destruct (generateQuestions paperType w) as [[[|first rest]|e] w']; simpl in *; congruence.
Qed.

Lemma serve_wellFormed req w :
  (∀ bank, questionBank w = Some bank → wellFormedBank bank) →
  ∀ bank, questionBank (serve req w).2 = Some bank → wellFormedBank bank.
Proof.
  intros Hw bank. destruct req as [file|paperType|url fetch]; simpl.
  - destruct (uploadHandler_bank file w) as [->|(f & data & bank' & _ & _ & Hbank & ->)];
      [apply Hw|].
    intros [= <-]. by eapply processExcelData_wellFormed.
  - rewrite generateHandler_bank. apply Hw.
  - apply Hw.
Qed.

(** X9: whatever requests a freshly started process has served, the bank
    it holds, if any, is well formed: every record has a unit within 1..5
    and a level other than "0", the identifiers ascend strictly, and the
    image references are resolved. *)
Theorem serveAll_wellFormed reqs random bank :
  questionBank (serveAll reqs (startWorld random)) = Some bank →
  wellFormedBank bank.
Proof.
  unfold serveAll.
  assert (∀ b, questionBank (startWorld random) = Some b → wellFormedBank b) as Hstart by done.
  revert Hstart bank. generalize (startWorld random) as w.
  induction reqs as [|req reqs IH]; intros w Hw bank; simpl; [apply Hw|].
  apply IH. by apply serve_wellFormed.
Qed.

Lemma serveAll_wellFormed_witness :
  questionBank (serveAll [UploadRequest (Some (sampleFile sampleSheet));
                          GenerateRequest "mid1";
                          UploadRequest (Some (sampleFile shortSheet))]
                  (startWorld (λ _, 0%nat)))
  = Some [sampleQuestion 1 1 "2"]
  ∧ wellFormedBank [sampleQuestion 1 1 "2"].
Proof.
  split; [vm_compute; reflexivity|].
  apply (serveAll_wellFormed [UploadRequest (Some (sampleFile sampleSheet));
                              GenerateRequest "mid1";
                              UploadRequest (Some (sampleFile shortSheet))]
           (λ _, 0%nat) [sampleQuestion 1 1 "2"]).
  vm_compute. reflexivity.
Defined.

(** X10: once an upload has stored the bank of a sheet, a generation that
    answers 200 sends six questions of that bank, with pairwise-distinct
    identifiers, and the details of the first of them; nothing of an
    earlier bank can appear. *)
Theorem upload_then_generate file data bank paperType w views details w' :
  up_rows file = Returns data →
  processExcelData data = Returns bank →
  generateHandler paperType (uploadHandler (Some file) w).2
  = ({| status := 200; json := PaperBody views details |}, w') →
  ∃ first rest,
    views = viewOf <$> first :: rest
    ∧ details = detailsOf first
    ∧ length rest = 5%nat
    ∧ (∀ q, q ∈ first :: rest → q ∈ bank)
    ∧ NoDup (q_id <$> first :: rest).
Proof.
  intros Hrows Hbank.
  assert (questionBank (uploadHandler (Some file) w).2 = Some bank) as Hstored.
  { unfold uploadHandler. rewrite Hrows, Hbank. by destruct (up_unlinkOk file). }
  generalize dependent (uploadHandler (Some file) w).2. intros w1 Hstored.
  unfold generateHandler. rewrite Hstored.
  destruct (generateQuestions paperType w1) as [[[|first rest]|e] w2] eqn:Hrun; [done| |done].
  intros [= <- <- <-].
  apply generateQuestions_returns in Hrun
    as (bank' & index & btls & f & r & btlReqs & unitReqs & s & Hw & _ & _ & _ & _ & _
        & [Hsel _ Hnd _ _ _] & Hs & _ & _ & Hsix).
  rewrite Hstored in Hw. injection Hw as <-. rewrite <- Hs in Hsel, Hnd.
  exists first, rest. split_and!; [done..| |done|done]. simpl in Hsix. lia.
Qed.

Lemma upload_then_generate_witness :
  (up_rows (sampleFile sampleSheet) = Returns sampleSheet
   ∧ processExcelData sampleSheet = Returns sampleBank
   ∧ generateHandler "mid1"
       (uploadHandler (Some (sampleFile sampleSheet)) (startWorld (λ _, 0%nat))).2
     = ({| status := 200;
           json := PaperBody (viewOf <$> sampleSelection)
                     (detailsOf (sampleQuestion 1 1 "2")) |},
        sampleWorld (Some sampleBank) 7))
  ∧ ∃ first rest,
      viewOf <$> sampleSelection = viewOf <$> first :: rest
      ∧ detailsOf (sampleQuestion 1 1 "2") = detailsOf first
      ∧ length rest = 5%nat
      ∧ (∀ q, q ∈ first :: rest → q ∈ sampleBank)
      ∧ NoDup (q_id <$> first :: rest).
Proof.
  split; [split_and!; vm_compute; reflexivity|].
  apply (upload_then_generate (sampleFile sampleSheet) sampleSheet sampleBank "mid1"
           (startWorld (λ _, 0%nat)) (viewOf <$> sampleSelection)
           (detailsOf (sampleQuestion 1 1 "2")) (sampleWorld (Some sampleBank) 7)).
  - reflexivity.
  - vm_compute. reflexivity.
  - vm_compute. reflexivity.
Defined.

(** X11: every answer to a generation request is of one of three kinds:
    status 400 with the no-bank message when no bank is loaded; status 200
    with the views of the six selected questions and the details of the
    first when [generateQuestions] returns; status 500 with the message of
    the error when it throws.  The bank is never changed. *)
Theorem generateHandler_answers paperType w :
  questionBank (generateHandler paperType w).2 = questionBank w
  ∧ ((questionBank w = None
      ∧ generateHandler paperType w
        = ({| status := 400;
              json := ErrorBody "No questions available. Please upload an Excel file first." |},
           w))
     ∨ (∃ first rest w',
          generateQuestions paperType w = (Returns (first :: rest), w')
          ∧ length rest = 5%nat
          ∧ generateHandler paperType w
            = ({| status := 200;
                  json := PaperBody (viewOf <$> first :: rest) (detailsOf first) |}, w'))
     ∨ (∃ e w',
          generateQuestions paperType w = (Throws e, w')
          ∧ generateHandler paperType w
            = ({| status := 500;
                  json := ErrorBody ("Error generating questions: " +:+ message e) |}, w'))).
Proof.
  split; [apply generateHandler_bank|].
  unfold generateHandler. destruct (questionBank w) as [bank|] eqn:Hw; [|by left].
  right. destruct (generateQuestions paperType w) as [[selected|e] w'] eqn:Hrun.
  - left. pose proof Hrun as Hsix. apply generateQuestions_returns in Hsix
      as (_ & _ & _ & _ & _ & _ & _ & _ & _ & _ & _ & _ & _ & _ & _ & _ & _ & _ & Hsix).
    destruct selected as [|first rest]; [done|].
    exists first, rest, w'. split_and!; [done| |done]. simpl in Hsix. lia.
  - right. by exists e, w'.
Qed.

(** ** What [generateQuestions] can throw *)

Lemma throwsOnly_ret {A} P (a : A) : throwsOnly P (ret a).
Proof. intros w e w'. done. Qed.

Lemma throwsOnly_throw {A} (P : error → Prop) e : P e → throwsOnly P (@throw A e).
Proof. intros He w e' w' [= <- _]. done. Qed.

Lemma throwsOnly_lift {A} (P : error → Prop) (o : outcome A) :
  (∀ e, o = Throws e → P e) → throwsOnly P (lift o).
Proof. intros Ho w e w' [= -> _]. by apply Ho. Qed.

Lemma throwsOnly_readBank P : throwsOnly P readBank.
Proof. intros w e w'. done. Qed.

Lemma throwsOnly_randomIndex P n : throwsOnly P (randomIndex n).
Proof. intros w e w'. done. Qed.

Lemma throwsOnly_bind {A B} P (m : M A) (k : A → M B) :
  throwsOnly P m → (∀ a, throwsOnly P (k a)) → throwsOnly P (m ≫= k).
Proof.
  intros Hm Hk w e w'. unfold mbind, M_bind, bind.
  destruct (m w) as [[a|e1] w1] eqn:Hrun.
  - apply Hk.
  - intros [= <- <-]. by eapply Hm.
Qed.

(** The draw of [pickQuestion] lands inside the candidates. *)
Lemma pickQuestion_runs unitReqs btl s w :
  (availableFor unitReqs btl s = []
   ∧ pickQuestion unitReqs btl s w = (Returns (None, s), w))
  ∨ (∃ q, availableFor unitReqs btl s
          !! (random w (drawn w) `mod` length (availableFor unitReqs btl s))%nat = Some q
          ∧ pickQuestion unitReqs btl s w
            = (Returns (Some q, consume q s),
               {| questionBank := questionBank w; random := random w;
                  drawn := S (drawn w) |})).
Proof.
  unfold pickQuestion. destruct (availableFor unitReqs btl s) as [|q0 rest] eqn:Hav.
  - by left.
  - right. unfold mbind, M_bind, bind, randomIndex.
    destruct (lookup_lt_is_Some_2 (q0 :: rest)
                (random w (drawn w) `mod` length (q0 :: rest))%nat) as [q Hq].
    { apply Nat.mod_upper_bound. done. }
    exists q. by rewrite Hq.
Qed.

Lemma throwsOnly_pickQuestion P unitReqs btl s : throwsOnly P (pickQuestion unitReqs btl s).
Proof.
  intros w e w' Hrun.
  destruct (pickQuestion_runs unitReqs btl s w) as [[_ H]|(q & _ & H)];
    rewrite H in Hrun; done.
Qed.

Lemma throwsOnly_weaken {A} (P Q : error → Prop) (m : M A) :
  (∀ e, P e → Q e) → throwsOnly P m → throwsOnly Q m.
Proof. intros HPQ Hm w e w' Hrun. eapply HPQ, Hm. done. Qed.

Lemma quotaError_generationError e : quotaError e → generationError e.
Proof. by destruct e. Qed.

Lemma throwsOnly_pickFixed unitReqs level count s :
  throwsOnly quotaError (pickFixed unitReqs level count s).
Proof.
  revert s. induction count as [|count IH]; intros s; simpl.
  - apply throwsOnly_ret.
  - apply throwsOnly_bind; [apply throwsOnly_pickQuestion|].
    intros [[q|] s']; [apply IH|by apply throwsOnly_throw].
Qed.

Lemma throwsOnly_pickRandom unitReqs randomBTLs count s :
  throwsOnly quotaError (pickRandom unitReqs randomBTLs count s).
Proof.
  revert s. induction count as [|count IH]; intros s; simpl.
  - apply throwsOnly_ret.
  - apply throwsOnly_bind; [apply throwsOnly_randomIndex|]. intros i.
    destruct (randomBTLs !! i) as [btl|]; [|by apply throwsOnly_throw].
    apply throwsOnly_bind; [apply throwsOnly_pickQuestion|].
    intros [[q|] s']; [apply IH|by apply throwsOnly_throw].
Qed.

(** The selection throws a quota error, or the [TypeError] of [filter] when
    a requirement is named "random" without options. *)
Lemma throwsOnly_fillRequirements index unitReqs btlReqs s :
  throwsOnly
    (λ e, quotaError e
          ∨ (e = TypeError "Cannot read properties of undefined (reading 'filter')"
             ∧ Exists (λ req, br_level req = "random" ∧ br_options req = None) btlReqs))
    (fillRequirements index unitReqs btlReqs s).
Proof.
  revert s. induction btlReqs as [|req btlReqs IH]; intros s; simpl.
  - apply throwsOnly_ret.
  - apply throwsOnly_bind.
    + unfold fillRequirement. case_bool_decide as Hrandom.
      * destruct (br_options req) as [options|] eqn:Hoptions.
        -- eapply throwsOnly_weaken; [by left|].
           destruct (feasibleBTLs _ _ _ _); [by apply throwsOnly_throw|].
           apply throwsOnly_pickRandom.
        -- apply throwsOnly_throw. right. split; [done|]. by left.
      * eapply throwsOnly_weaken; [by left|].
        case_bool_decide; [by apply throwsOnly_throw|apply throwsOnly_pickFixed].
    + intros s'. eapply throwsOnly_weaken; [|apply IH].
      intros e [?|[-> ?]]; [by left|]. right. split; [done|]. by right.
Qed.

Lemma validateUnitMinimums_throws reqs s e :
  validateUnitMinimums reqs s = Throws e → quotaError e.
Proof.
  induction reqs as [|req reqs IH]; simpl; [done|].
  case_bool_decide; [by intros [= <-]|done].
Qed.

Lemma indexUnit_throws qs byBTL btls e :
  indexUnit qs byBTL btls = Throws e →
  e = TypeError "availableByUnitAndBTL[unit][q.btLevel].push is not a function"
  ∧ ∃ q, q ∈ qs ∧ q_btLevel q ∈ objectPrototypeKeys.
Proof.
  revert byBTL btls. induction qs as [|q qs IH]; intros byBTL btls; simpl; [done|].
  unfold getProp. destruct (byBTL !! q_btLevel q) as [arr|].
  - intros (-> & r & Hr & Hkey)%IH. split; [done|]. exists r. split; [by right|done].
  - case_bool_decide as Hkey.
    + intros [= <-]. split; [done|]. exists q. split; [by left|done].
    + intros (-> & r & Hr & Hkey')%IH. split; [done|]. exists r. split; [by right|done].
Qed.

Lemma indexUnits_throws units bank index btls e :
  indexUnits units bank index btls = Throws e →
  e = TypeError "availableByUnitAndBTL[unit][q.btLevel].push is not a function"
  ∧ ∃ q, q ∈ bank ∧ q_unit q ∈ units ∧ q_btLevel q ∈ objectPrototypeKeys.
Proof.
  revert index btls. induction units as [|unit units IH]; intros index btls; simpl; [done|].
  destruct (indexUnit _ ∅ btls) as [[byBTL btls1]|e1] eqn:Hunit.
  - intros (-> & q & Hq & Hu & Hkey)%IH. split; [done|].
    exists q. split_and!; [done|by right|done].
  - intros [= <-]. apply indexUnit_throws in Hunit
      as (-> & q & [Hu Hq]%list_elem_of_filter & Hkey).
    split; [done|]. exists q. split_and!; [done|rewrite Hu; by left|done].
Qed.

Lemma fills_six maxBTL btls btlReqs selected :
  btlRequirements maxBTL btls = Returns btlReqs →
  fills btlReqs selected →
  length selected = 6%nat.
Proof.
  intros Hreqs ->%fills_length. unfold btlRequirements in Hreqs.
  repeat (case_bool_decide; [by injection Hreqs as <-|]).
  destruct btls as [|level [|]]; [done| |done]. by injection Hreqs as <-.
Qed.

Lemma selectQuestions_throws index btlReqs unitReqs w bank e w' :
  questionBank w = Some bank →
  selectQuestions index btlReqs unitReqs w = (Throws e, w') →
  quotaError e
  ∨ (e = TypeError "Cannot read properties of undefined (reading 'filter')"
     ∧ Exists (λ req, br_level req = "random" ∧ br_options req = None) btlReqs).
Proof.
  intros Hw. unfold selectQuestions. unfold mbind at 1, M_bind at 1, bind at 1, readBank.
  rewrite Hw. revert w Hw e w'.
  cut (throwsOnly
         (λ e, quotaError e
               ∨ (e = TypeError "Cannot read properties of undefined (reading 'filter')"
                  ∧ Exists (λ req, br_level req = "random" ∧ br_options req = None) btlReqs))
         (fillRequirements index unitReqs btlReqs (initialSelection bank)
          ≫= λ s, lift (validateUnitMinimums unitReqs s) ≫= λ _, ret (selectedQuestions s))).
  { intros Hthrows w _ e w'. apply Hthrows. }
  apply throwsOnly_bind; [apply throwsOnly_fillRequirements|]. intros s.
  apply throwsOnly_bind; [|intros; apply throwsOnly_ret].
  apply throwsOnly_lift. intros e ?%validateUnitMinimums_throws. by left.
Qed.

Lemma unitRequirements_throws paperType e :
  unitRequirements paperType = Throws e → e = InvalidPaperType.
Proof.
  unfold unitRequirements. repeat (case_bool_decide; [done|]). by intros [= <-].
Qed.

Lemma btlRequirements_throws maxBTL btls e :
  btlRequirements maxBTL btls = Throws e → e = UnsupportedCase maxBTL btls.
Proof.
  unfold btlRequirements. repeat (case_bool_decide; [done|]).
  destruct btls as [|? [|]]; [|done|]; by intros [= <-].
Qed.

(** X12: [generateQuestions] never throws the error about not having
    selected exactly six questions; the only [TypeError]s it can throw are
    the one of [push] on an inherited property and the one of [filter] on
    missing options, so never that of a question read past the end of the
    candidates, nor that of spreading a missing bank. *)
Theorem generateQuestions_errors paperType w e w' :
  generateQuestions paperType w = (Throws e, w') → generationError e.
Proof.
  unfold generateQuestions, mbind, M_bind, bind, readBank, lift, throw.
  destruct (questionBank w) as [bank|] eqn:Hw; [|by intros [= <- _]].
  case_bool_decide; [by intros [= <- _]|].
  destruct (assessAvailable bank) as [[index btls]|e1] eqn:Hindex.
  2: { intros [= <- _]. apply indexUnits_throws in Hindex as [-> _]. simpl. by left. }
  destruct (btLevelsOf bank) as [|first rest]; [by intros [= <- _]|].
  destruct (btlRequirements _ btls) as [btlReqs|e1] eqn:Hreqs.
  2: { intros [= <- _]. by apply btlRequirements_throws in Hreqs as ->. }
  destruct (unitRequirements paperType) as [unitReqs|e1] eqn:Hunits.
  2: { intros [= <- _]. by apply unitRequirements_throws in Hunits as ->. }
  destruct (selectQuestions index btlReqs unitReqs w) as [[selected|e1] w1] eqn:Hselect.
  - apply selectQuestions_returns in Hselect as (_ & _ & _ & _ & _ & Hfills & _).
    rewrite bool_decide_false; [done|]. intros Hlen. apply Hlen. by eapply fills_six.
  - intros [= <- _].
    destruct (selectQuestions_throws _ _ _ _ _ _ _ Hw Hselect) as [?|[-> _]].
    + by apply quotaError_generationError.
    + simpl. by right.
Qed.

Lemma generateQuestions_errors_witness :
  generateQuestions "final" (sampleWorld (Some sampleBank) 0)
  = (Throws InvalidPaperType, sampleWorld (Some sampleBank) 0)
  ∧ generationError InvalidPaperType.
Proof.
  split; [vm_compute; reflexivity|].
  apply (generateQuestions_errors "final" (sampleWorld (Some sampleBank) 0)
           InvalidPaperType (sampleWorld (Some sampleBank) 0)).
  vm_compute. reflexivity.
Defined.

(** ** Levels named like inherited properties *)

Lemma indexUnit_inherited qs byBTL btls :
  (∀ k, k ∈ objectPrototypeKeys → byBTL !! k = None) →
  (∃ q, q ∈ qs ∧ q_btLevel q ∈ objectPrototypeKeys) →
  indexUnit qs byBTL btls
  = Throws (TypeError "availableByUnitAndBTL[unit][q.btLevel].push is not a function").
Proof.
  revert byBTL btls. induction qs as [|q qs IH]; intros byBTL btls Hown (r & Hr & Hkey).
  { by apply not_elem_of_nil in Hr. }
  simpl. unfold getProp. destruct (decide (q_btLevel q ∈ objectPrototypeKeys)) as [Hq|Hq].
  - rewrite (Hown _ Hq). by rewrite bool_decide_true.
  - assert (∃ r, r ∈ qs ∧ q_btLevel r ∈ objectPrototypeKeys) as Hrest.
    { apply elem_of_cons in Hr as [->|Hr]; [done|]. by exists r. }
    assert (∀ arr k, k ∈ objectPrototypeKeys → <[q_btLevel q := arr]> byBTL !! k = None)
      as Hown'.
    { intros arr k Hk. rewrite lookup_insert_ne; [by apply Hown|]. by intros <-. }
    destruct (byBTL !! q_btLevel q); [apply IH; auto|].
    rewrite bool_decide_false by done. apply IH; auto.
Qed.

Lemma indexUnits_inherited units bank index btls :
  (∃ q, q ∈ bank ∧ q_unit q ∈ units ∧ q_btLevel q ∈ objectPrototypeKeys) →
  indexUnits units bank index btls
  = Throws (TypeError "availableByUnitAndBTL[unit][q.btLevel].push is not a function").
Proof.
  revert index btls. induction units as [|unit units IH]; intros index btls (q & Hq & Hu & Hkey).
  { by apply not_elem_of_nil in Hu. }
  simpl. destruct (indexUnit _ ∅ btls) as [[byBTL btls1]|e] eqn:Hunit.
  - apply IH. exists q. split_and!; [done| |done].
    apply elem_of_cons in Hu as [Hu|Hu]; [|done].
    rewrite indexUnit_inherited in Hunit; [done|by intros; apply lookup_empty|].
    exists q. by rewrite list_elem_of_filter.
  - by apply indexUnit_throws in Hunit as [-> _].
Qed.

(** X13: for a loaded bank of at least six questions, all of units 1..5,
    [generateQuestions] throws a [TypeError] exactly when some question has
    a level named like a property every object inherits (such as
    "constructor"); the error is then that of [push], for every paper
    type, and nothing is changed. *)
Theorem generateQuestions_inherited_level paperType w bank :
  questionBank w = Some bank →
  (6 ≤ length bank)%nat →
  (∀ q, q ∈ bank → q_unit q ∈ [1; 2; 3; 4; 5]) →
  ((∃ q, q ∈ bank ∧ q_btLevel q ∈ objectPrototypeKeys)
   ↔ ∃ msg w', generateQuestions paperType w = (Throws (TypeError msg), w'))
  ∧ ((∃ q, q ∈ bank ∧ q_btLevel q ∈ objectPrototypeKeys) →
     generateQuestions paperType w
     = (Throws (TypeError "availableByUnitAndBTL[unit][q.btLevel].push is not a function"),
        w)).
Proof.
  intros Hw Hlen Hunits.
  assert ((∃ q, q ∈ bank ∧ q_btLevel q ∈ objectPrototypeKeys) →
          generateQuestions paperType w
          = (Throws (TypeError "availableByUnitAndBTL[unit][q.btLevel].push is not a function"),
             w)) as Hthrows.
  { intros (q & Hq & Hkey).
    unfold generateQuestions, mbind, M_bind, bind, readBank, lift.
    rewrite Hw. rewrite bool_decide_false by lia.
    unfold assessAvailable. rewrite indexUnits_inherited; [done|].
    exists q. split_and!; auto. }
  split; [|done]. split.
  - intros Hkey. rewrite (Hthrows Hkey). by eexists _, _.
  - intros (msg & w' & Hrun). revert Hrun.
    unfold generateQuestions, mbind, M_bind, bind, readBank, lift, throw.
    rewrite Hw. rewrite bool_decide_false by lia.
    destruct (assessAvailable bank) as [[index btls]|e1] eqn:Hindex.
    2: { intros _. apply indexUnits_throws in Hindex as (_ & q & Hq & _ & Hkey).
         by exists q. }
    destruct (btLevelsOf bank) as [|first rest] eqn:Hlevels; [done|].
    destruct (btlRequirements _ btls) as [btlReqs|e1] eqn:Hreqs.
    2: { intros [= -> _]. by apply btlRequirements_throws in Hreqs. }
    destruct (unitRequirements paperType) as [unitReqs|e1] eqn:Hunit.
    2: { intros [= -> _]. by apply unitRequirements_throws in Hunit. }
    destruct (selectQuestions index btlReqs unitReqs w) as [[selected|e1] w1] eqn:Hselect.
    { by case_bool_decide. }
    intros [= -> _]. exfalso.
    destruct (selectQuestions_throws _ _ _ _ _ _ _ Hw Hselect) as [?|[_ Hnamed]]; [done|].
    unfold btlRequirements in Hreqs.
    repeat (case_bool_decide;
            [injection Hreqs as <-;
             repeat (apply Exists_cons in Hnamed as [[? ?]|Hnamed]; [done|]);
             by apply Exists_nil in Hnamed|]).
    destruct btls as [|level [|]]; [done| |done]. injection Hreqs as <-.
    apply Exists_cons in Hnamed as [[Hlevel _]|Hnamed]; [|by apply Exists_nil in Hnamed].
    simpl in Hlevel. subst level.
    destruct (assessAvailable_returns _ _ _ Hindex) as (Helem & _ & _).
    assert (Forall (λ x, x = parseIntOr0 "random") (btLevelsOf bank)) as Hall.
    { apply btLevelsOf_single. intros q Hq.
      assert (q_btLevel q ∈ ["random"]) as Hin
        by (apply Helem; exists q; split_and!; auto).
      by apply list_elem_of_singleton in Hin. }
    rewrite Hlevels in Hall. apply Forall_cons in Hall as [Hfirst _].
    assert (first ∈ btLevelsOf bank) as Hin by (rewrite Hlevels; by left).
    unfold btLevelsOf in Hin. apply list_elem_of_filter in Hin as [Hpos _].
    rewrite Hfirst in Hpos. done.
Qed.

Lemma generateQuestions_inherited_level_witness :
  (questionBank (sampleWorld (Some (levelBank ["constructor"; "2"; "2"; "2"; "2"; "2"])) 0)
   = Some (levelBank ["constructor"; "2"; "2"; "2"; "2"; "2"])
   ∧ (6 ≤ length (levelBank ["constructor"; "2"; "2"; "2"; "2"; "2"]))%nat
   ∧ (∀ q, q ∈ levelBank ["constructor"; "2"; "2"; "2"; "2"; "2"] →
           q_unit q ∈ [1; 2; 3; 4; 5]))
  ∧ generateQuestions "mid2"
      (sampleWorld (Some (levelBank ["constructor"; "2"; "2"; "2"; "2"; "2"])) 0)
    = (Throws (TypeError "availableByUnitAndBTL[unit][q.btLevel].push is not a function"),
       sampleWorld (Some (levelBank ["constructor"; "2"; "2"; "2"; "2"; "2"])) 0).
Proof.
  assert (∀ q, q ∈ levelBank ["constructor"; "2"; "2"; "2"; "2"; "2"] →
               q_unit q ∈ [1; 2; 3; 4; 5]) as Hunits.
  { intros q Hq. vm_compute in Hq.
    repeat (apply elem_of_cons in Hq as [->|Hq]; [apply list_elem_of_here|]).
    by apply not_elem_of_nil in Hq. }
  split; [split_and!; [reflexivity|simpl; lia|exact Hunits]|].
  destruct (generateQuestions_inherited_level "mid2"
              (sampleWorld (Some (levelBank ["constructor"; "2"; "2"; "2"; "2"; "2"])) 0)
              (levelBank ["constructor"; "2"; "2"; "2"; "2"; "2"]))
    as [_ Hthrows]; [reflexivity|simpl; lia|exact Hunits|].
  apply Hthrows. exists (sampleQuestion 1 1 "constructor").
  split; [apply list_elem_of_here|apply list_elem_of_here].
Defined.

(** ** Schemes B and C *)

Lemma fills_schemeB selected :
  fills schemeB selected →
  ∃ a b c d e f,
    selected = [a; b; c; d; e; f]
    ∧ q_btLevel a = "2" ∧ q_btLevel b = "2"
    ∧ q_btLevel c = "3" ∧ q_btLevel d = "3"
    ∧ q_btLevel e = "4" ∧ q_btLevel f = "4".
Proof.
  unfold schemeB.
  intros (g2 & r2 & -> & L2 & M2 & H)%fills_cons_inv.
  apply fills_cons_inv in H as (g3 & r3 & -> & L3 & M3 & H).
  apply fills_cons_inv in H as (g4 & r4 & -> & L4 & M4 & ->%fills_nil_inv).
  simpl in *. list_of_length g2. list_of_length g3. list_of_length g4.
  repeat match goal with H : Forall _ (_ :: _) |- _ => apply Forall_cons in H as [? H] end.
  repeat match goal with H : meets _ _ |- _ => apply meets_fixed in H; [|done] end.
  eauto 20.
Qed.

(** X14: when the maximum level of the bank is 4, a selection that
    [generateQuestions] returns holds exactly two questions at each of the
    levels "2", "3" and "4". *)
Theorem generateQuestions_schemeB_levels paperType w bank selected w' :
  questionBank w = Some bank →
  maxBTLOf bank = Some 4 →
  generateQuestions paperType w = (Returns selected, w') →
  levelTally "2" selected = 2%nat
  ∧ levelTally "3" selected = 2%nat
  ∧ levelTally "4" selected = 2%nat.
Proof.
  intros Hbank Hmax
    (bank' & index & btls & first & rest & btlReqs & unitReqs & s & Hw & _ & _ & Hlv & Hbtl
     & _ & _ & Hsel & Hfills & _ & _)%generateQuestions_returns.
  rewrite Hbank in Hw. injection Hw as <-.
  unfold maxBTLOf in Hmax. rewrite Hlv in Hmax. injection Hmax as Hmax.
  rewrite Hmax in Hbtl. injection Hbtl as <-.
  apply fills_schemeB in Hfills
    as (a & b & c & d & e & f & -> & Ha & Hb & Hc & Hd & He & Hf).
  unfold levelTally. rewrite !filter_cons, !filter_nil, Ha, Hb, Hc, Hd, He, Hf.
  by vm_compute.
Qed.

Lemma generateQuestions_schemeB_levels_witness :
  (questionBank (sampleWorld (Some schemeBBank) 0) = Some schemeBBank
   ∧ maxBTLOf schemeBBank = Some 4
   ∧ generateQuestions "mid1" (sampleWorld (Some schemeBBank) 0)
     = (Returns schemeBBank, sampleWorld (Some schemeBBank) 6))
  ∧ levelTally "2" schemeBBank = 2%nat
  ∧ levelTally "3" schemeBBank = 2%nat
  ∧ levelTally "4" schemeBBank = 2%nat.
Proof.
  split; [split_and!; vm_compute; reflexivity|].
  apply (generateQuestions_schemeB_levels "mid1" (sampleWorld (Some schemeBBank) 0)
           schemeBBank schemeBBank (sampleWorld (Some schemeBBank) 6)).
  - reflexivity.
  - vm_compute. reflexivity.
  - vm_compute. reflexivity.
Defined.

(** X15: when the maximum level of the bank is neither 6 nor 4, a
    selection that [generateQuestions] returns has one level throughout:
    the only level found among the bank's questions of units 1 to 5. *)
Theorem generateQuestions_schemeC_level paperType w bank m selected w' :
  questionBank w = Some bank →
  maxBTLOf bank = Some m → m ≠ 6 → m ≠ 4 →
  generateQuestions paperType w = (Returns selected, w') →
  ∃ level,
    (∀ q, q ∈ selected → q_btLevel q = level)
    ∧ (∀ q, q ∈ bank → q_unit q ∈ [1; 2; 3; 4; 5] → q_btLevel q = level).
Proof.
  intros Hbank Hmax H6 H4
    (bank' & index & btls & first & rest & btlReqs & unitReqs & s & Hw & _ & Hidx & Hlv & Hbtl
     & _ & _ & Hsel & Hfills & _ & _)%generateQuestions_returns.
  rewrite Hbank in Hw. injection Hw as <-.
  unfold maxBTLOf in Hmax. rewrite Hlv in Hmax. injection Hmax as Hmax.
  rewrite Hmax in Hbtl. unfold btlRequirements in Hbtl.
  rewrite !bool_decide_false in Hbtl by done.
  destruct btls as [|level [|]]; [done| |done]. injection Hbtl as <-.
  exists level. split.
  - apply fills_cons_inv in Hfills as (group & others & -> & _ & Hall & ->%fills_nil_inv).
    rewrite app_nil_r. intros q Hq. eapply Forall_forall in Hall; [|done].
    unfold meets in Hall. simpl in Hall. case_bool_decide; [|done].
    by destruct Hall as (? & ? & _).
  - destruct (assessAvailable_returns _ _ _ Hidx) as (Helem & _ & _).
    intros q Hq Hu. assert (q_btLevel q ∈ [level]) as Hin by (apply Helem; by exists q).
    by apply list_elem_of_singleton in Hin.
Qed.

Lemma generateQuestions_schemeC_level_witness :
  (questionBank (sampleWorld (Some schemeCBank) 0) = Some schemeCBank
   ∧ maxBTLOf schemeCBank = Some 5 ∧ 5 ≠ 6 ∧ 5 ≠ 4
   ∧ generateQuestions "mid1" (sampleWorld (Some schemeCBank) 0)
     = (Returns schemeCBank, sampleWorld (Some schemeCBank) 6))
  ∧ ∃ level,
      (∀ q, q ∈ schemeCBank → q_btLevel q = level)
      ∧ (∀ q, q ∈ schemeCBank → q_unit q ∈ [1; 2; 3; 4; 5] → q_btLevel q = level).
Proof.
  split; [split_and!; [reflexivity|vm_compute; reflexivity|lia|lia|vm_compute; reflexivity]|].
  apply (generateQuestions_schemeC_level "mid1" (sampleWorld (Some schemeCBank) 0)
           schemeCBank 5 schemeCBank (sampleWorld (Some schemeCBank) 6)).
  - reflexivity.
  - vm_compute. reflexivity.
  - lia.
  - lia.
  - vm_compute. reflexivity.
Defined.

(** ** One pick *)

(** X16: the sort of the participating units by distance below their
    minimum does not affect a pick: the candidates are the remaining
    questions of the level in a unit of the table that is below its
    maximum, in bank order, whatever the minimums. *)
Theorem availableFor_ignores_priority unitReqs btl s :
  availableFor unitReqs btl s
  = filter (λ q, q_unit q ∈ ur_unit <$> unitReqs
                 ∧ q_btLevel q = btl
                 ∧ (countOf (unitCount s) (q_unit q) < maxCountOf unitReqs (q_unit q))%nat)
           (remainingQuestions s).
Proof.
  unfold availableFor, allowedUnits. apply list_filter_iff.
  intros q. by rewrite sortBy_elem.
Qed.

(** ** What the availability index holds *)

Lemma indexUnit_contents qs byBTL btls byBTL' btls' l :
  indexUnit qs byBTL btls = Returns (byBTL', btls') →
  byBTL' !! l =
  match filter (λ q, q_btLevel q = l) qs with
  | [] => byBTL !! l
  | group => Some (default [] (byBTL !! l) ++ group)
  end.
Proof.
  revert byBTL btls. induction qs as [|q qs IH]; intros byBTL btls; simpl.
  - by intros [= <- <-].
  - intros Hrun.
    assert (∃ arr, indexUnit qs (<[q_btLevel q := arr]> byBTL) (setAdd (q_btLevel q) btls)
                   = Returns (byBTL', btls')
                   ∧ arr = default [] (byBTL !! q_btLevel q) ++ [q]) as (arr & Hrest & Harr).
    { unfold getProp in Hrun. destruct (byBTL !! q_btLevel q) as [old|]; [by eexists|].
      case_bool_decide; [done|]. by eexists. }
    rewrite (IH _ _ Hrest). rewrite filter_cons. case_decide as Hl.
    + subst l. rewrite lookup_insert_eq. simpl. rewrite Harr.
      destruct (filter _ qs) as [|q1 group]; [reflexivity|].
      f_equal. rewrite <- (assoc_L (++)). reflexivity.
    + by rewrite lookup_insert_ne.
Qed.

Lemma indexUnits_contents units bank index btls index' btls' u l :
  indexUnits units bank index btls = Returns (index', btls') →
  NoDup units →
  availableAt index' u l =
  if bool_decide (u ∈ units) then
    match filter (λ q, q_unit q = u ∧ q_btLevel q = l) bank with
    | [] => None
    | group => Some group
    end
  else availableAt index u l.
Proof.
  revert index btls. induction units as [|unit units IH]; intros index btls; simpl.
  - by intros [= <- <-].
  - destruct (indexUnit _ ∅ btls) as [[byBTL btls1]|e] eqn:Hunit; [|done].
    intros Hrest [Hfresh Hnodup]%NoDup_cons. rewrite (IH _ _ Hrest Hnodup).
    case_bool_decide as Hu.
    + rewrite bool_decide_true; [done|by right].
    + unfold availableAt. rewrite lookup_insert. case_decide as Heq.
      * subst u. rewrite bool_decide_true by by left. simpl.
        rewrite (indexUnit_contents _ _ _ _ _ l Hunit), lookup_empty.
        rewrite list_filter_filter.
        erewrite (list_filter_iff (λ q, q_btLevel q = l ∧ q_unit q = unit)
                    (λ q, q_unit q = unit ∧ q_btLevel q = l)); [|tauto].
        by destruct (filter _ bank).
      * rewrite bool_decide_false; [done|]. intros [->|?]%elem_of_cons; done.
Qed.

Lemma assessAvailable_availableAt bank index btls u l :
  assessAvailable bank = Returns (index, btls) →
  availableAt index u l
  = (if bool_decide (u ∈ [1; 2; 3; 4; 5]) then
       match filter (λ q, q_unit q = u ∧ q_btLevel q = l) bank with
       | [] => None
       | group => Some group
       end
     else None).
Proof.
  intros Hrun. unfold assessAvailable in Hrun.
  rewrite (indexUnits_contents _ _ _ _ _ _ u l Hrun); [|nodup_explicit].
  case_bool_decide; [done|]. unfold availableAt. by rewrite lookup_empty.
Qed.

Lemma availableLength_availableAt index u l :
  availableLength index u l = length <$> availableAt index u l.
Proof. unfold availableLength, availableAt. by destruct (index !! u). Qed.



(** ** Numbers read back from their decimal form *)

Lemma isDigit_cases c :
  isDigit c = true →
  c ∈ ["0"; "1"; "2"; "3"; "4"; "5"; "6"; "7"; "8"; "9"]%char.
Proof.
  destruct c as [[] [] [] [] [] [] [] []]; vm_compute; intros H;
    first [discriminate H | elem_of_explicit].
Qed.

Lemma pretty_N_char_digit m :
  (m < 10)%N →
  isDigit (pretty_N_char m) = true ∧ digitValue (pretty_N_char m) = Some (Z.of_N m).
Proof.
  intros Hm.
  assert (m = 0 ∨ m = 1 ∨ m = 2 ∨ m = 3 ∨ m = 4 ∨ m = 5 ∨ m = 6 ∨ m = 7 ∨ m = 8 ∨ m = 9)%N
    as Hcases by lia.
  repeat (destruct Hcases as [->|Hcases]; [by vm_compute|]). by subst.
Qed.

Lemma pretty_N_go_allDigits x s : allDigits s = true → allDigits (pretty_N_go x s) = true.
Proof.
  revert s. induction (N.lt_wf_0 x) as [x _ IH]; intros s Hs.
  assert (x = 0 ∨ 0 < x)%N as [->|Hpos] by lia; [by rewrite pretty_N_go_0|].
  rewrite pretty_N_go_step by done. apply IH; [by apply N.div_lt|]. simpl.
  destruct (pretty_N_char_digit (x `mod` 10)) as [-> _]; [by apply N.mod_lt|done].
Qed.

(** Reading the digits [pretty_N_go] puts before [s] shifts what was read
    and adds the number. *)
Lemma readDigits_pretty_N_go x s :
  (0 < x)%N →
  ∃ k, ∀ acc,
    readDigits 10 (pretty_N_go x s) acc
    = readDigits 10 s (Some (default 0 acc * 10 ^ Z.of_nat k + Z.of_N x)).
Proof.
  revert s. induction (N.lt_wf_0 x) as [x _ IH]; intros s Hpos.
  rewrite pretty_N_go_step by done.
  destruct (pretty_N_char_digit (x `mod` 10)) as [_ Hvalue]; [by apply N.mod_lt|].
  pose proof (N.div_mod x 10 ltac:(done)) as Hdivmod.
  pose proof (N.mod_lt x 10 ltac:(done)) as Hdigit.
  pose proof (N.div_lt x 10 Hpos ltac:(done)) as Hless.
  revert IH Hvalue Hdivmod Hdigit Hless.
  generalize (x `mod` 10)%N as d. generalize (x `div` 10)%N as q.
  intros q d IH Hvalue Hdivmod Hdigit Hless.
  assert (q = 0 ∨ 0 < q)%N as [->|Hmore] by lia.
  - rewrite pretty_N_go_0. exists 1%nat. intros acc. simpl.
    rewrite Hvalue. destruct (Z.ltb_spec (Z.of_N d) 10); [|lia].
    do 2 f_equal. lia.
  - destruct (IH q Hless (String (pretty_N_char d) s) Hmore) as [k Hk].
    exists (S k). intros acc. rewrite Hk. simpl readDigits.
    rewrite Hvalue. destruct (Z.ltb_spec (Z.of_N d) 10); [|lia].
    do 2 f_equal. simpl default. rewrite Nat2Z.inj_succ, Z.pow_succ_r by lia. lia.
Qed.

Lemma fmap_mul_1 (o : option Z) : (λ n, 1 * n) <$> o = o.
Proof. destruct o as [n|]; simpl; [|done]. f_equal. lia. Qed.

Lemma parseInt_allDigits s :
  allDigits s = true → parseInt s = readDigits 10 s None.
Proof.
  destruct s as [|c s]; [done|]. simpl. intros [Hc Hs]%andb_prop.
  apply isDigit_cases in Hc.
  assert (∀ x r, s = String x r → bool_decide (x = "x"%char ∨ x = "X"%char) = false)
    as Hnox.
  { intros x r ->. simpl in Hs. apply andb_prop in Hs as [Hx%isDigit_cases _].
    repeat (apply elem_of_cons in Hx as [->|Hx]; [by vm_compute|]).
    by apply not_elem_of_nil in Hx. }
  unfold parseInt.
  apply elem_of_cons in Hc as [->|Hc].
  { change (trimStart (String "0" s)) with (String "0"%char s). cbn beta iota.
    destruct s as [|x r]; [by vm_compute|]. rewrite (Hnox x r eq_refl).
    apply fmap_mul_1. }
  repeat (apply elem_of_cons in Hc as [->|Hc];
          [match goal with
           | |- context [trimStart (String ?c s)] =>
               change (trimStart (String c s)) with (String c s)
           end; cbn beta iota; apply fmap_mul_1|]).
  by apply not_elem_of_nil in Hc.
Qed.

Lemma parseInt_minus_allDigits s :
  allDigits s = true →
  parseInt (String "-" s) = (λ n, -1 * n) <$> readDigits 10 s None.
Proof.
  destruct s as [|c s]; [done|]. simpl. intros [Hc Hs]%andb_prop.
  apply isDigit_cases in Hc.
  assert (∀ x r, s = String x r → bool_decide (x = "x"%char ∨ x = "X"%char) = false)
    as Hnox.
  { intros x r ->. simpl in Hs. apply andb_prop in Hs as [Hx%isDigit_cases _].
    repeat (apply elem_of_cons in Hx as [->|Hx]; [by vm_compute|]).
    by apply not_elem_of_nil in Hx. }
  unfold parseInt.
  apply elem_of_cons in Hc as [->|Hc].
  { change (trimStart (String "-" (String "0" s))) with (String "-" (String "0" s)).
    cbn beta iota. destruct s as [|x r]; [by vm_compute|]. by rewrite (Hnox x r eq_refl). }
  repeat (apply elem_of_cons in Hc as [->|Hc];
          [match goal with
           | |- context [trimStart (String "-" (String ?c s))] =>
               change (trimStart (String "-" (String c s))) with (String "-" (String c s))
           end; by cbn beta iota|]).
  by apply not_elem_of_nil in Hc.
Qed.

Lemma parseInt_pretty n : parseInt (pretty n) = Some n.
Proof.
  destruct n as [|p|p]; [done| |].
  - unfold pretty, pretty_Z, pretty, pretty_positive, pretty, pretty_N.
    rewrite decide_False by done.
    rewrite parseInt_allDigits by by apply pretty_N_go_allDigits.
    destruct (readDigits_pretty_N_go (N.pos p) "") as [k ->]; [done|].
    simpl; f_equal; lia.
  - unfold pretty, pretty_Z, pretty, pretty_positive, pretty, pretty_N.
    rewrite decide_False by done.
    change ("-" +:+ pretty_N_go (N.pos p) "") with (String "-" (pretty_N_go (N.pos p) "")).
    rewrite parseInt_minus_allDigits by by apply pretty_N_go_allDigits.
    destruct (readDigits_pretty_N_go (N.pos p) "") as [k ->]; [done|].
    simpl; f_equal; lia.
Qed.

(** X19: an integer cell is read back as itself: for an integer [n] below
    10^21 in absolute value, [parseInt(String(n))] is [n], so a numeric
    [Unit] cell gives the unit [n]. *)
Theorem unitOf_numeric_cell r n :
  row_Unit r = JNumber n →
  -10 ^ 21 < n < 10 ^ 21 →
  parseInt (ToString (JNumber n)) = Some n ∧ unitOf r = n.
Proof.
  intros Hcell _. unfold unitOf, parseIntOr0. rewrite Hcell. simpl.
  by rewrite parseInt_pretty.
Qed.

Lemma unitOf_numeric_cell_witness :
  (row_Unit (sampleRow (JNumber 3) (JString "L2")) = JNumber 3 ∧ -10 ^ 21 < 3 < 10 ^ 21)
  ∧ parseInt (ToString (JNumber 3)) = Some 3
  ∧ unitOf (sampleRow (JNumber 3) (JString "L2")) = 3.
Proof.
  split; [split; [reflexivity|lia]|].
  apply (unitOf_numeric_cell (sampleRow (JNumber 3) (JString "L2")) 3); [reflexivity|lia].
Defined.

Lemma str_app_nil_r (s : string) : s +:+ "" = s.
Proof. induction s as [|c s IH]; simpl; [done|]. by f_equal. Qed.

Lemma rev_rev s : String.rev (String.rev s) = s.
Proof. unfold String.rev. by rewrite rev_app_rev_app, str_app_nil_r. Qed.

Lemma noWhiteSpace_rev_app s1 s2 :
  noWhiteSpace (String.rev_app s1 s2) = noWhiteSpace s1 && noWhiteSpace s2.
Proof.
  revert s2. induction s1 as [|c s1 IH]; intros s2; simpl; [done|].
  rewrite IH. simpl. destruct (isWhiteSpace c), (noWhiteSpace s1); done.
Qed.

Lemma trimStart_noWhiteSpace s : noWhiteSpace s = true → trimStart s = s.
Proof. destruct s as [|c s]; simpl; [done|]. by destruct (isWhiteSpace c). Qed.

(** Trimming leaves a string without white space as it is. *)
Lemma trim_noWhiteSpace s : noWhiteSpace s = true → trim s = s.
Proof.
  intros Hs. unfold trim, trimEnd. rewrite (trimStart_noWhiteSpace s Hs).
  rewrite trimStart_noWhiteSpace; [apply rev_rev|].
  unfold String.rev. by rewrite noWhiteSpace_rev_app, Hs.
Qed.

Lemma allDigits_noWhiteSpace s : allDigits s = true → noWhiteSpace s = true.
Proof.
  induction s as [|c s IH]; simpl; [done|]. intros [Hc Hs]%andb_prop.
  rewrite IH by done. apply isDigit_cases in Hc.
  repeat (apply elem_of_cons in Hc as [->|Hc]; [by vm_compute|]).
  by apply not_elem_of_nil in Hc.
Qed.

(** The decimal form of an integer: an optional minus sign, then digits. *)
Lemma pretty_Z_shape (n : Z) :
  ∃ digits, allDigits digits = true
            ∧ (pretty n = digits ∨ pretty n = String "-" digits).
Proof.
  destruct n as [|p|p].
  - by exists "0"; split; [|left].
  - exists (pretty_N_go (N.pos p) ""). split; [by apply pretty_N_go_allDigits|]. left.
    unfold pretty, pretty_Z, pretty, pretty_positive, pretty, pretty_N.
    by rewrite decide_False.
  - exists (pretty_N_go (N.pos p) ""). split; [by apply pretty_N_go_allDigits|]. right.
    unfold pretty, pretty_Z, pretty, pretty_positive, pretty, pretty_N.
    by rewrite decide_False.
Qed.

Lemma stripL_allDigits s : allDigits s = true → stripL s = s.
Proof.
  destruct s as [|c s]; simpl; [done|]. intros [Hc _]%andb_prop.
  apply isDigit_cases in Hc.
  repeat (apply elem_of_cons in Hc as [->|Hc]; [by vm_compute|]).
  by apply not_elem_of_nil in Hc.
Qed.

(** X20: a numeric level cell holding a safe integer other than 0 gives
    the decimal form of the number as level label, which is neither empty
    nor "0" and is read back as the number when the maximum level is
    computed; a cell holding 0 gives the empty label, for which the row is
    dropped. *)
Theorem btLevelOf_numeric_cell r n :
  row_BTLevel r = JNumber n →
  isSafeInteger n →
  (n ≠ 0 →
   btLevelOf r = pretty n
   ∧ btLevelOf r ≠ "" ∧ btLevelOf r ≠ "0"
   ∧ parseIntOr0 (btLevelOf r) = n)
  ∧ (n = 0 → btLevelOf r = "").
Proof.
  intros Hcell _. unfold btLevelOf. rewrite Hcell. split; [|by intros ->].
  intros Hn. unfold js_or. simpl truthy.
  destruct (Z.eqb_spec n 0) as [|_]; [done|]. simpl.
  assert (stripL (trim (pretty n)) = pretty n) as ->.
  { destruct (pretty_Z_shape n) as (digits & Hdigits & [-> | ->]).
    - rewrite trim_noWhiteSpace by by apply allDigits_noWhiteSpace.
      by apply stripL_allDigits.
    - rewrite trim_noWhiteSpace; [done|]. simpl. by apply allDigits_noWhiteSpace. }
  pose proof (parseInt_pretty n) as Hparse. split_and!; [done| | |].
  - intros Hempty. by rewrite Hempty in Hparse.
  - intros Hzero. rewrite Hzero in Hparse. by injection Hparse as <-.
  - unfold parseIntOr0. by rewrite Hparse.
Qed.

Lemma btLevelOf_numeric_cell_witness :
  (row_BTLevel (sampleRow (JNumber 1) (JNumber 4)) = JNumber 4 ∧ isSafeInteger 4)
  ∧ btLevelOf (sampleRow (JNumber 1) (JNumber 4)) = "4"
  ∧ parseIntOr0 (btLevelOf (sampleRow (JNumber 1) (JNumber 4))) = 4.
Proof.
  split; [split; [reflexivity|unfold isSafeInteger; lia]|].
  destruct (btLevelOf_numeric_cell (sampleRow (JNumber 1) (JNumber 4)) 4)
    as [Hnonzero _]; [reflexivity|unfold isSafeInteger; lia|].
  destruct (Hnonzero ltac:(lia)) as (Hlabel & _ & _ & Hvalue). split; [exact Hlabel|exact Hvalue].
Defined.

(** ** The count reported by the first quota *)

Lemma availableCount_initial index unitReqs bank l :
  availableCount index unitReqs (initialSelection bank) l
  = Z.of_nat (sum_list ((λ u, default 0%nat (availableLength index (ur_unit u) l))
                        <$> unitReqs)).
Proof.
  unfold availableCount.
  change (countOf (btlCount (initialSelection bank)) l) with 0%nat.
  set (step := λ (sum : Z) (u : unitRequirement), _).
  assert (∀ sum, foldl step sum unitReqs
                 = sum + Z.of_nat (sum_list ((λ u, default 0%nat
                                                (availableLength index (ur_unit u) l))
                                             <$> unitReqs))) as Hfold; [|apply Hfold].
  induction unitReqs as [|u unitReqs IH]; intros sum; csimpl; [lia|].
  rewrite IH. unfold step. lia.
Qed.

Lemma unitRequirements_table paperType unitReqs :
  unitRequirements paperType = Returns unitReqs →
  NoDup (ur_unit <$> unitReqs)
  ∧ ∀ u, u ∈ ur_unit <$> unitReqs → u ∈ [1; 2; 3; 4; 5].
Proof.
  unfold unitRequirements.
  repeat (case_bool_decide;
          [intros [= <-]; split; [nodup_explicit|];
           intros u Hu; csimpl in Hu;
           repeat (apply elem_of_cons in Hu as [->|Hu]; [elem_of_explicit|]);
           by apply not_elem_of_nil in Hu|]).
  done.
Qed.

(** The lengths the pre-check adds up are those of the bank's questions of
    the level in the units of the table. *)
Lemma availableLength_sum bank index btls units l :
  assessAvailable bank = Returns (index, btls) →
  NoDup units →
  (∀ u, u ∈ units → u ∈ [1; 2; 3; 4; 5]) →
  sum_list ((λ u, default 0%nat (availableLength index u l)) <$> units)
  = length (filter (λ q, q_unit q ∈ units ∧ q_btLevel q = l) bank).
Proof.
  intros Hrun Hnodup Hunits.
  rewrite (length_by_units units (filter _ bank) Hnodup);
    [|by intros q [[? _] _]%list_elem_of_filter].
  f_equal. apply list_fmap_ext. intros i u Hu%list_elem_of_lookup_2.
  rewrite availableLength_availableAt, (assessAvailable_availableAt _ _ _ _ _ Hrun).
  rewrite bool_decide_true by auto. unfold unitTally. rewrite list_filter_filter.
  erewrite (list_filter_iff (λ q, q_unit q = u ∧ q_unit q ∈ units ∧ q_btLevel q = l)
              (λ q, q_unit q = u ∧ q_btLevel q = l)).
  - by destruct (filter _ bank).
  - intros q. split; [tauto|]. intros [-> ?]. done.
Qed.

(** X21: under Scheme A or B, when the bank holds fewer than two questions
    of level "2" in the units of the paper type, [generateQuestions] throws
    the level-"2" quota error reporting exactly that number as found,
    without drawing. *)
Theorem generateQuestions_level_2_shortfall paperType w bank index btls unitReqs :
  questionBank w = Some bank →
  (6 ≤ length bank)%nat →
  assessAvailable bank = Returns (index, btls) →
  maxBTLOf bank = Some 6 ∨ maxBTLOf bank = Some 4 →
  unitRequirements paperType = Returns unitReqs →
  (length (filter (λ q, q_unit q ∈ ur_unit <$> unitReqs ∧ q_btLevel q = "2") bank) < 2)%nat →
  generateQuestions paperType w
  = (Throws (InsufficientBTL "2" 2
               (Z.of_nat (length (filter (λ q, q_unit q ∈ ur_unit <$> unitReqs
                                               ∧ q_btLevel q = "2") bank)))), w).
Proof.
  intros Hw Hlen Hindex Hmax Hunits Hshort.
  destruct (unitRequirements_table _ _ Hunits) as [Hnodup Hrange].
  assert (availableCount index unitReqs (initialSelection bank) "2"
          = Z.of_nat (length (filter (λ q, q_unit q ∈ ur_unit <$> unitReqs
                                          ∧ q_btLevel q = "2") bank))) as Hfound.
  { rewrite availableCount_initial. f_equal.
    rewrite <- (availableLength_sum bank index btls _ "2" Hindex Hnodup Hrange).
    by rewrite <- list_fmap_compose. }
  assert (∀ rest,
            selectQuestions index
              ({| br_level := "2"; br_options := None; br_count := 2 |} :: rest) unitReqs w
            = (Throws (InsufficientBTL "2" 2
                 (Z.of_nat (length (filter (λ q, q_unit q ∈ ur_unit <$> unitReqs
                                                 ∧ q_btLevel q = "2") bank)))), w))
    as Hselect.
  { intros rest. unfold selectQuestions, mbind, M_bind, bind, readBank. rewrite Hw. simpl.
    unfold mbind, M_bind, bind, fillRequirement. simpl. rewrite Hfound.
    rewrite bool_decide_true by lia. done. }
  unfold generateQuestions, mbind, M_bind, bind, readBank, lift.
  rewrite Hw. rewrite bool_decide_false by lia. rewrite Hindex.
  unfold maxBTLOf in Hmax. destruct (btLevelsOf bank) as [|first rest]; [by destruct Hmax|].
  rewrite Hunits.
  destruct Hmax as [[= ->]|[= ->]]; simpl; unfold schemeA, schemeB; by rewrite Hselect.
Qed.

Lemma generateQuestions_level_2_shortfall_witness :
  (questionBank (sampleWorld (Some sampleBank) 0) = Some sampleBank
   ∧ (6 ≤ length sampleBank)%nat
   ∧ maxBTLOf sampleBank = Some 6
   ∧ unitRequirements "mid2"
     = Returns [ {| ur_unit := 4; ur_minCount := 2; ur_maxCount := 3 |};
                 {| ur_unit := 5; ur_minCount := 2; ur_maxCount := 3 |};
                 {| ur_unit := 3; ur_minCount := 1; ur_maxCount := 1 |} ])
  ∧ generateQuestions "mid2" (sampleWorld (Some sampleBank) 0)
    = (Throws (InsufficientBTL "2" 2 0), sampleWorld (Some sampleBank) 0).
Proof.
  split; [split_and!; [reflexivity|simpl; lia|vm_compute; reflexivity|reflexivity]|].
  destruct (assessAvailable sampleBank) as [[index btls]|e] eqn:Hindex;
    [|vm_compute in Hindex; discriminate Hindex].
  apply (generateQuestions_level_2_shortfall "mid2" (sampleWorld (Some sampleBank) 0)
           sampleBank index btls
           [ {| ur_unit := 4; ur_minCount := 2; ur_maxCount := 3 |};
             {| ur_unit := 5; ur_minCount := 2; ur_maxCount := 3 |};
             {| ur_unit := 3; ur_minCount := 1; ur_maxCount := 1 |} ]).
  - reflexivity.
  - simpl. lia.
  - exact Hindex.
  - left. vm_compute. reflexivity.
  - reflexivity.
  - vm_compute. lia.
Defined.
